(** * SDXL-Turbo text-to-browser notebook

    A shallow embedding of [SDXL_Turbo_T2B.ipynb]: the three functions
    [process_image], [create_html_page_with_images], [display_in_browser]
    and the [__main__] cell that chains them.

    The notebook is a straight-line script around three external
    capabilities: the diffusion pipeline, the temporary-file facility and
    the web-browser launcher.  These are collected in the class [Env];
    everything the notebook itself does (base64 wrapping, HTML templating,
    sequencing, exception propagation) is defined here and computes.

    Python values are modelled as follows: [str] is [string] (all
    literals of the notebook and all base64 output are ASCII), [bytes] is
    [list byte], [int] is [Z], a raised exception is the left summand of
    the result of a computation in the monad [M]. *)

From Stdlib Require Import NArith ZArith QArith Lia List String Ascii.
From Stdlib.Strings Require Import Byte.
From stdpp Require Import base gmap strings list.

Ltac Zify.zify_post_hook ::= Z.to_euclidean_division_equations.

(* ===================================================================== *)
(** * Definitions                                                         *)
(* ===================================================================== *)

(** ** Characters and strings *)

Module Str.

Definition dquote : ascii := "034"%char.
Definition newline : ascii := "010"%char.
Definition lt_sign : ascii := "<"%char.
Definition gt_sign : ascii := ">"%char.
Definition ampersand : ascii := "&"%char.

Definition q : string := String dquote EmptyString.
Definition nl : string := String newline EmptyString.

(** [c] occurs in [s]. *)
Fixpoint mem (c : ascii) (s : string) : bool :=
  match s with
  | EmptyString => false
  | String d s' => if Ascii.eqb c d then true else mem c s'
  end.

(** Every character of [s] satisfies [p]. *)
Fixpoint all (p : ascii -> bool) (s : string) : bool :=
  match s with
  | EmptyString => true
  | String d s' => p d && all p s'
  end.

(** The number of occurrences of [c] in [s]. *)
Fixpoint count_char (c : ascii) (s : string) : nat :=
  match s with
  | EmptyString => 0
  | String d s' => (if Ascii.eqb c d then 1 else 0) + count_char c s'
  end.

(** [s] is empty or begins with [c]. *)
Definition starts (c : ascii) (s : string) : bool :=
  match s with
  | EmptyString => true
  | String d _ => Ascii.eqb c d
  end.

(** [strip_prefix pat s = Some r] when [s = pat ++ r]. *)
Fixpoint strip_prefix (pat s : string) : option string :=
  match pat with
  | EmptyString => Some s
  | String a pat' =>
      match s with
      | EmptyString => None
      | String b s' => if Ascii.eqb a b then strip_prefix pat' s' else None
      end
  end.

(** What follows each occurrence of [pat] in [s], from left to right:
    one entry per position of [s] at which [pat] starts. *)
Fixpoint occurrences (pat s : string) : list string :=
  match s with
  | EmptyString => []
  | String _ s' =>
      match strip_prefix pat s with
      | Some r => r :: occurrences pat s'
      | None => occurrences pat s'
      end
  end.

(** The number of positions of [s] at which [pat] starts. *)
Definition count_sub (pat s : string) : nat := length (occurrences pat s).

(** The characters of [s] before the first occurrence of [c]. *)
Fixpoint take_until (c : ascii) (s : string) : string :=
  match s with
  | EmptyString => EmptyString
  | String d s' => if Ascii.eqb c d then EmptyString else String d (take_until c s')
  end.

Fixpoint concat (l : list string) : string :=
  match l with
  | [] => EmptyString
  | s :: l' => s +:+ concat l'
  end.

End Str.

(** A byte that is a code point of its own in UTF-8. *)
Definition is_ascii_byte (b : byte) : bool := (Byte.to_N b <? 128)%N.

(** ** [base64.b64encode] (RFC 4648, standard alphabet, with padding) *)

Module Base64.

Definition alphabet : string :=
  "ABCDEFGHIJKLMNOPQRSTUVWXYZabcdefghijklmnopqrstuvwxyz0123456789+/".

Definition pad : byte := byte_of_ascii "="%char.

(** The character of a 6-bit value. *)
Definition sextet (i : N) : byte :=
  match String.get (N.to_nat i) alphabet with
  | Some c => byte_of_ascii c
  | None => pad
  end.

(** The four 6-bit groups of a 24-bit group [a b c]. *)
Definition s0 (a : byte) : N := Byte.to_N a / 4.
Definition s1 (a b : byte) : N := (Byte.to_N a mod 4) * 16 + Byte.to_N b / 16.
Definition s2 (b c : byte) : N := (Byte.to_N b mod 16) * 4 + Byte.to_N c / 64.
Definition s3 (c : byte) : N := Byte.to_N c mod 64.

Fixpoint b64encode (bs : list byte) : list byte :=
  match bs with
  | [] => []
  | [a] => [sextet (s0 a); sextet (s1 a x00); pad; pad]
  | [a; b] => [sextet (s0 a); sextet (s1 a b); sextet (s2 b x00); pad]
  | a :: b :: c :: rest =>
      sextet (s0 a) :: sextet (s1 a b) :: sextet (s2 b c) :: sextet (s3 c)
        :: b64encode rest
  end.

(** The inverse table: the 6-bit value of an alphabet character. *)
Fixpoint index_from (i : N) (c : ascii) (tbl : string) : option N :=
  match tbl with
  | EmptyString => None
  | String d tbl' => if Ascii.eqb c d then Some i else index_from (N.succ i) c tbl'
  end.

Definition value (c : byte) : option N := index_from 0 (ascii_of_byte c) alphabet.

Definition is_pad (c : byte) : bool := Byte.eqb c pad.

(** The decoder of the padded format: full groups of four alphabet
    characters, then possibly one final group ending in one or two pads. *)
Fixpoint b64decode (cs : list byte) : option (list byte) :=
  match cs with
  | [] => Some []
  | c0 :: c1 :: c2 :: c3 :: rest =>
      match value c0, value c1 with
      | Some v0, Some v1 =>
          match value c2, value c3 with
          | Some v2, Some v3 =>
              match Byte.of_N (v0 * 4 + v1 / 16),
                    Byte.of_N ((v1 mod 16) * 16 + v2 / 4),
                    Byte.of_N ((v2 mod 4) * 64 + v3),
                    b64decode rest with
              | Some a, Some b, Some c, Some bs => Some (a :: b :: c :: bs)
              | _, _, _, _ => None
              end
          | Some v2, None =>
              match rest, is_pad c3,
                    Byte.of_N (v0 * 4 + v1 / 16),
                    Byte.of_N ((v1 mod 16) * 16 + v2 / 4) with
              | [], true, Some a, Some b => Some [a; b]
              | _, _, _, _ => None
              end
          | None, _ =>
              match rest, is_pad c2 && is_pad c3, Byte.of_N (v0 * 4 + v1 / 16) with
              | [], true, Some a => Some [a]
              | _, _, _ => None
              end
          end
      | _, _ => None
      end
  | _ => None
  end.

(** The characters that can occur in base64 text. *)
Definition is_b64_char (c : ascii) : bool :=
  let n := N_of_ascii c in
  ((65 <=? n) && (n <=? 90) || (97 <=? n) && (n <=? 122)
   || (48 <=? n) && (n <=? 57) || (n =? 43) || (n =? 47) || (n =? 61))%N.

(** A byte of base64 text: a base64 character, one byte in UTF-8. *)
Definition b64_byte (c : byte) : bool :=
  is_b64_char (ascii_of_byte c) && is_ascii_byte c.

(** One entry of the table, checked: the value of the character of [i]
    is [i], and that character is a base64 byte other than the pad. *)
Definition table_entry_ok (i : N) : bool :=
  match value (sextet i) with
  | Some j => (i =? j)%N
  | None => false
  end
  && is_b64_char (ascii_of_byte (sextet i))
  && is_ascii_byte (sextet i)
  && negb (is_pad (sextet i)).

End Base64.

(** ** Exceptions and the external capabilities *)

(** The exceptions that can reach the notebook's code.  The diffusion
    pipeline may raise anything; [External] carries whatever it raised. *)
Inductive exn : Type :=
| External (what : string)
| IndexError
| UnicodeDecodeError
| FileExistsError.

(** The keyword arguments the notebook passes to the pipeline. *)
Record SamplingConfig : Type := {
  num_inference_steps : Z;
  guidance_scale : Q
}.

(** [int] argument [new] of [webbrowser.open]. *)
Inductive BrowserTarget : Type := SameWindow | NewWindow | NewTab.

Definition target_of_new (new : Z) : option BrowserTarget :=
  if (new =? 0)%Z then Some SameWindow
  else if (new =? 1)%Z then Some NewWindow
  else if (new =? 2)%Z then Some NewTab
  else None.

(** What the notebook imports and does not define.
    - [pipeline_call]: the object [pipeline] applied to a prompt; it owns a
      hidden state (weights, the global random generator), may raise, and
      otherwise returns the list [.images].
    - [save_png]: the bytes [image.save(buffer, format='PNG')] writes,
      for an image the encoder accepts.
    - [gettempdir], [tmp_names]: the directory and the stream of random
      names [tempfile] draws candidates from.
    - [TMP_MAX]: [tempfile.TMP_MAX], the number of candidates tried; it is
      [os.TMP_MAX] where the platform has one and 10000 otherwise.
    - [path_join]: [os.path.join] of the platform.
    - [browser_launch]: the boolean [webbrowser.open] returns. *)
Class Env : Type := {
  Image : Type;
  ModelState : Type;
  pipeline_call : string -> SamplingConfig -> ModelState -> (exn + list Image) * ModelState;
  save_png : Image -> list byte;
  gettempdir : string;
  tmp_names : nat -> string;
  TMP_MAX : nat;
  path_join : string -> string -> string;
  browser_launch : string -> Z -> bool
}.

(** ** The state the notebook acts on *)

Record World {E : Env} : Type := mkWorld {
  model : ModelState;                   (* hidden state of [pipeline] *)
  model_calls : list string;            (* prompts passed to [pipeline], oldest first *)
  fs : gmap string string;              (* files: path to content *)
  names_drawn : nat;                    (* position in [tmp_names] *)
  browser : list (string * Z)           (* [webbrowser.open] requests, oldest first *)
}.

Section Effects.
Context {E : Env}.

(** The pipeline was called with [prompt] and left its state at [m]. *)
Definition on_model (prompt : string) (m : ModelState) (w : World) : World :=
  {| model := m; model_calls := model_calls w ++ [prompt];
     fs := fs w; names_drawn := names_drawn w; browser := browser w |}.

(** The file system became [files], with [k] names drawn so far. *)
Definition on_fs (files : gmap string string) (k : nat) (w : World) : World :=
  {| model := model w; model_calls := model_calls w;
     fs := files; names_drawn := k; browser := browser w |}.

(** The browser was asked to open [url]. *)
Definition on_browser (url : string) (new : Z) (w : World) : World :=
  {| model := model w; model_calls := model_calls w; fs := fs w;
     names_drawn := names_drawn w; browser := browser w ++ [(url, new)] |}.

End Effects.

(** ** Computations that may raise *)

Section Monad.
Context {E : Env}.

Definition M (A : Type) : Type := World -> (exn + A) * World.

Definition ret {A} (a : A) : M A := fun w => (inr a, w).
Definition raise {A} (e : exn) : M A := fun w => (inl e, w).
Definition bind {A B} (m : M A) (k : A -> M B) : M B :=
  fun w => match m w with
           | (inl e, w') => (inl e, w')
           | (inr a, w') => k a w'
           end.

End Monad.

Notation "x <- m ;; k" := (bind m (fun x => k))
  (at level 100, m at next level, right associativity).
Notation "m ;;; k" := (bind m (fun _ => k))
  (at level 100, right associativity).

(** ** The notebook *)

Section Notebook.
Context {E : Env}.

(** *** Python built-ins used by the cells *)

(** [range(n)] *)
Definition range (n : Z) : list Z := map Z.of_nat (seq 0 (Z.to_nat n)).

(** [[body(x) for x in xs]] *)
Fixpoint comprehension {A} (body : Z -> M A) (xs : list Z) : M (list A) :=
  match xs with
  | [] => ret []
  | x :: xs' =>
      a <- body x ;;
      rest <- comprehension body xs' ;;
      ret (a :: rest)
  end.

(** [l[0]] *)
Definition index0 {A} (l : list A) : M A :=
  match l with
  | [] => raise IndexError
  | a :: _ => ret a
  end.

(** [b.decode('utf-8')] on the one-byte code points; a byte above 127
    would start a multi-byte sequence, which [string] cannot hold and
    which base64 text never contains ([b64encode_ascii] below). *)
Definition decode_utf8 (bs : list byte) : M string :=
  if forallb is_ascii_byte bs then ret (string_of_list_byte bs)
  else raise UnicodeDecodeError.

(** [io.BytesIO]: a growable buffer and a position. *)
Record BytesIO : Type := { buf : list byte; pos : nat }.

Definition BytesIO_new : BytesIO := {| buf := []; pos := 0 |}.

Definition bio_write (b : BytesIO) (data : list byte) : BytesIO :=
  {| buf := firstn (pos b) (buf b) ++ data
            ++ skipn (pos b + length data) (buf b);
     pos := pos b + length data |}.

Definition bio_seek (b : BytesIO) (p : nat) : BytesIO :=
  {| buf := buf b; pos := p |}.

Definition bio_getvalue (b : BytesIO) : list byte := buf b.

(** *** External calls, as actions on the world *)

(** [pipeline(prompt=..., num_inference_steps=..., guidance_scale=...)] *)
Definition pipeline (prompt : string) (cfg : SamplingConfig) : M (list Image) :=
  fun w =>
    let '(r, m') := pipeline_call prompt cfg (model w) in
    (r, on_model prompt m' w).

(** [image.save(buffer, format='PNG')] *)
Definition image_save (image : Image) (buffer : BytesIO) : BytesIO :=
  bio_write buffer (save_png image).

(** [tempfile]: the candidates [os.path.join(dir, prefix + name + suffix)],
    with the default prefix [tmp], are tried in the order of the name
    stream until one does not exist; the file is created empty.  After
    [TMP_MAX] collisions [FileExistsError]. *)
Definition tmp_path (suffix : string) (k : nat) : string :=
  path_join gettempdir ("tmp" +:+ tmp_names k +:+ suffix).

Fixpoint mkstemp_inner (attempts : nat) (suffix : string)
    (files : gmap string string) (k : nat) : exn + (string * nat) :=
  match attempts with
  | O => inl FileExistsError
  | S attempts' =>
      match files !! tmp_path suffix k with
      | Some _ => mkstemp_inner attempts' suffix files (S k)
      | None => inr (tmp_path suffix k, S k)
      end
  end.

Definition NamedTemporaryFile (suffix : string) : M string :=
  fun w =>
    match mkstemp_inner TMP_MAX suffix (fs w) (names_drawn w) with
    | inl e => (inl e, w)
    | inr (path, k') => (inr path, on_fs (<[path := EmptyString]> (fs w)) k' w)
    end.

(** [temp_file.write(data)] on a file opened in text mode ["w"] *)
Definition file_write (path : string) (data : string) : M unit :=
  fun w =>
    (inr tt,
     on_fs (<[path := default EmptyString (fs w !! path) +:+ data]> (fs w))
           (names_drawn w) w).

(** [webbrowser.open(url, new=new)] *)
Definition webbrowser_open (url : string) (new : Z) : M bool :=
  fun w => (inr (browser_launch url new), on_browser url new w).

(** *** Cell 7: [process_image] and [create_html_page_with_images] *)

Definition data_uri_prefix : string := "data:image/png;base64,".

Definition turbo : SamplingConfig :=
  {| num_inference_steps := 1; guidance_scale := 0 |}.

Definition process_image (prompt : string) : M string :=
  images <- pipeline prompt turbo ;;
  image <- index0 images ;;
  let img_buffer := BytesIO_new in
  let img_buffer := image_save image img_buffer in
  let img_buffer := bio_seek img_buffer 0 in
  data_uri <- decode_utf8 (Base64.b64encode (bio_getvalue img_buffer)) ;;
  ret (data_uri_prefix +:+ data_uri).

(** The text between the triple quotes, up to and including the four
    blanks before the closing quotes. *)
Definition html_prelude : string :=
  Str.nl +:+
  "    <!DOCTYPE html>" +:+ Str.nl +:+
  "    <html lang=" +:+ Str.q +:+ "en" +:+ Str.q +:+ ">" +:+ Str.nl +:+
  "    <head>" +:+ Str.nl +:+
  "        <meta charset=" +:+ Str.q +:+ "UTF-8" +:+ Str.q +:+ ">" +:+ Str.nl +:+
  "        <title>Generated Images Gallery</title>" +:+ Str.nl +:+
  "        <style>" +:+ Str.nl +:+
  "            body {" +:+ Str.nl +:+
  "                margin: 0;" +:+ Str.nl +:+
  "                padding: 0;" +:+ Str.nl +:+
  "                background-color: #f0f0f0;" +:+ Str.nl +:+
  "                font-family: Arial, sans-serif;" +:+ Str.nl +:+
  "            }" +:+ Str.nl +:+
  "            .gallery {" +:+ Str.nl +:+
  "                display: flex;" +:+ Str.nl +:+
  "                flex-wrap: wrap;" +:+ Str.nl +:+
  "                justify-content: center;" +:+ Str.nl +:+
  "                padding: 20px;" +:+ Str.nl +:+
  "            }" +:+ Str.nl +:+
  "            .gallery img {" +:+ Str.nl +:+
  "                margin: 10px;" +:+ Str.nl +:+
  "                border: 1px solid #ccc;" +:+ Str.nl +:+
  "                border-radius: 5px;" +:+ Str.nl +:+
  "                width: auto;" +:+ Str.nl +:+
  "                max-width: 300px;" +:+ Str.nl +:+
  "                height: auto;" +:+ Str.nl +:+
  "            }" +:+ Str.nl +:+
  "        </style>" +:+ Str.nl +:+
  "    </head>" +:+ Str.nl +:+
  "    <body>" +:+ Str.nl +:+
  "        <h1 style=" +:+ Str.q +:+ "text-align: center; margin-top: 20px;"
    +:+ Str.q +:+ ">AI Generated Images Gallery</h1>" +:+ Str.nl +:+
  "        ".

Definition gallery_open : string :=
  "<div class=" +:+ Str.q +:+ "gallery" +:+ Str.q +:+ ">".

Definition html_header : string :=
  html_prelude +:+ gallery_open +:+ Str.nl +:+ "    ".

Definition html_footer : string := "</div></body></html>".

(** [f'<img src="{url}" alt="Generated Image"/>'] *)
Definition img_open : string := "<img src=" +:+ Str.q.
Definition img_close : string :=
  Str.q +:+ " alt=" +:+ Str.q +:+ "Generated Image" +:+ Str.q +:+ "/>".

Definition img_tag (url : string) : string := img_open +:+ url +:+ img_close.

(** The tag without its first character. *)
Definition tag_rest (url : string) : string :=
  "img src=" +:+ Str.q +:+ url +:+ img_close.

(** The value of [html_content] when the file is opened: the [for] loop
    appends one tag per element, then the footer is appended. *)
Definition html_document (image_urls : list string) : string :=
  let html_content := html_header in
  let html_content :=
    fold_left (fun html_content url => html_content +:+ img_tag url)
              image_urls html_content in
  html_content +:+ html_footer.

Definition create_html_page_with_images (image_urls : list string) : M string :=
  let html_content := html_document image_urls in
  temp_file <- NamedTemporaryFile ".html" ;;
  file_write temp_file html_content ;;;
  ret temp_file.

(** *** Cell 9: [display_in_browser] *)

Definition display_in_browser (html_file_path : string) : M unit :=
  webbrowser_open ("file://" +:+ html_file_path) 2 ;;;
  ret tt.

(** *** Cell 11: the [__main__] block, for any prompt and count *)

Definition main_with (prompt : string) (number_of_images : Z) : M unit :=
  image_urls <- comprehension (fun _ => process_image prompt)
                              (range number_of_images) ;;
  html_page_path <- create_html_page_with_images image_urls ;;
  display_in_browser html_page_path.

Definition main : M unit :=
  main_with "Create candy land in a handy heaven." 3.

End Notebook.

(** ** Vocabulary of the statements *)

Section Vocabulary.
Context {E : Env}.

(** The Data URI of an image: the prefix, then the base64 text of its
    PNG bytes. *)
Definition data_uri_of (image : Image) : string :=
  data_uri_prefix +:+ string_of_list_byte (Base64.b64encode (save_png image)).

(** The first image of each of the next [n] answers of the model to
    [prompt], in call order; [None] when one of these calls raises or
    returns no image. *)
Fixpoint served (prompt : string) (n : nat) (m : ModelState) : option (list Image) :=
  match n with
  | O => Some []
  | S n' =>
      match pipeline_call prompt turbo m with
      | (inr (image :: _), m') => cons image <$> served prompt n' m'
      | _ => None
      end
  end.

(** The state of the model after [n] calls with [prompt]. *)
Fixpoint model_after (prompt : string) (n : nat) (m : ModelState) : ModelState :=
  match n with
  | O => m
  | S n' => model_after prompt n' (snd (pipeline_call prompt turbo m))
  end.

End Vocabulary.

Section Runs.
Context {E : Env}.

(** The world after [n] calls of the pipeline with [prompt]. *)
Definition after_generation (prompt : string) (n : nat) (w : World) : World :=
  {| model := model_after prompt n (model w);
     model_calls := model_calls w ++ repeat prompt n;
     fs := fs w; names_drawn := names_drawn w; browser := browser w |}.

(** Two worlds that differ at most in the model and its call log. *)
Definition same_outside (w w' : World) : Prop :=
  fs w' = fs w /\ names_drawn w' = names_drawn w /\ browser w' = browser w.

End Runs.

(** [data:image/png;base64,] followed by base64 text only. *)
Definition is_data_uri (s : string) : bool :=
  match Str.strip_prefix data_uri_prefix s with
  | Some payload => Str.all Base64.is_b64_char payload
  | None => false
  end.

(** No character that could end the [src] attribute or open a tag. *)
Definition attribute_safe (s : string) : bool :=
  negb (Str.mem Str.dquote s) && negb (Str.mem Str.lt_sign s).

(** What a reader of the gallery finds: the values of the [src]
    attributes of the [<img] tags, in document order.  This is the text
    between the quotes as it is written; an HTML parser would also decode
    character references, of which a text without [&], such as a Data
    URI, has none. *)
Definition img_srcs (doc : string) : list string :=
  map (Str.take_until Str.dquote) (Str.occurrences img_open doc).

(** The part of the gallery document before the [<img] tags that is
    inside the gallery container, and the tag that closes the container. *)
Definition img_start : string := "<img".
Definition gallery_indent : string := Str.nl +:+ "    ".
Definition gallery_close : string := "</div>".
Definition html_tail : string := "</body></html>".

(** ** A small environment to run the notebook in *)

Module Stub.

(** The PNG signature followed by one byte that tells images apart. *)
Definition png (tag : nat) : list byte :=
  [x89; x50; x4e; x47; x0d; x0a; x1a; x0a]
    ++ [default x00 (Byte.of_N (N.of_nat tag))].

(** The model state counts the calls made so far.  Call number
    [fail_at] raises; the image of a call is tagged with its number when
    [fresh] is set and is always the same image otherwise. *)
Definition call (fail_at : option nat) (fresh : bool)
    (prompt : string) (cfg : SamplingConfig) (n : nat)
    : (exn + list nat) * nat :=
  if decide (fail_at = Some n) then (inl (External "out of memory"), S n)
  else (inr [if fresh then n else 0], S n).

Definition names (k : nat) : string :=
  string_of_list_ascii (repeat "x"%char (S k)).

(** [posixpath.join] of two components. *)
Definition begins_with_slash (s : string) : bool :=
  match s with
  | EmptyString => false
  | String c _ => Ascii.eqb c "/"
  end.

Fixpoint ends_with_slash (s : string) : bool :=
  match s with
  | EmptyString => false
  | String c EmptyString => Ascii.eqb c "/"
  | String _ s' => ends_with_slash s'
  end.

Definition posix_join (a b : string) : string :=
  if begins_with_slash b then b
  else if String.eqb a EmptyString || ends_with_slash a then a +:+ b
  else a +:+ "/" +:+ b.

(** A POSIX machine on which [tempfile] tries 10000 candidates. *)
Definition env (fail_at : option nat) (fresh : bool) : Env :=
  {| Image := nat;
     ModelState := nat;
     pipeline_call := call fail_at fresh;
     save_png := png;
     gettempdir := "/tmp";
     tmp_names := names;
     TMP_MAX := Z.to_nat 10000;
     path_join := posix_join;
     browser_launch := fun _ _ => true |}.

(** A machine on which nothing has happened yet. *)
Definition world0 (E : Env) (m : @ModelState E) : @World E :=
  {| model := m; model_calls := []; fs := ∅; names_drawn := 0; browser := [] |}.

(** Three environments: every call gives a new image; every call gives
    the same image; the second call raises. *)
Definition fresh : Env := env None true.
Definition frozen : Env := env None false.
Definition failing : Env := env (Some 1) true.

Definition prompt : string := "Create candy land in a handy heaven.".

(** The Data URIs of the images tagged 0, 1 and 2. *)
Definition uri0 : string := "data:image/png;base64,iVBORw0KGgoA".
Definition uri1 : string := "data:image/png;base64,iVBORw0KGgoB".
Definition uri2 : string := "data:image/png;base64,iVBORw0KGgoC".

Definition first_tmp : string := "/tmp/tmpx.html".
Definition second_tmp : string := "/tmp/tmpxx.html".

End Stub.

(** ** An environment whose temporary names are used up *)

Module Jammed.

(** The name stream repeats one name, and the file of that name exists. *)
Definition env : Env :=
  {| Image := nat;
     ModelState := nat;
     pipeline_call := Stub.call None true;
     save_png := Stub.png;
     gettempdir := "/tmp";
     tmp_names := fun _ => "x";
     TMP_MAX := Z.to_nat 10000;
     path_join := Stub.posix_join;
     browser_launch := fun _ _ => true |}.

Definition world0 : @World env :=
  on_fs {[ "/tmp/tmpx.html" := "taken" ]} 0 (Stub.world0 env 0).

End Jammed.

(* ===================================================================== *)
(** * Properties                                                          *)
(* ===================================================================== *)

(** ** Strings *)

Module StrFacts.
Import Str.

Lemma app_nil_l (a : string) : EmptyString +:+ a = a.
Proof. reflexivity. Qed.

Lemma app_cons x (a b : string) : String x a +:+ b = String x (a +:+ b).
Proof. reflexivity. Qed.

Lemma app_assoc (a b c : string) : (a +:+ b) +:+ c = a +:+ (b +:+ c).
Proof.
  induction a as [|x a IH]; [reflexivity |].
  rewrite !app_cons. now f_equal.
Qed.

Lemma app_nil_r (a : string) : a +:+ EmptyString = a.
Proof.
  induction a as [|x a IH]; [reflexivity |].
  rewrite app_cons. now f_equal.
Qed.

Lemma mem_app c (a b : string) : mem c (a +:+ b) = mem c a || mem c b.
Proof.
  induction a as [|x a IH]; [reflexivity |].
  rewrite app_cons. simpl.
  destruct (Ascii.eqb c x); [reflexivity | exact IH].
Qed.

Lemma all_app p (a b : string) : all p (a +:+ b) = all p a && all p b.
Proof.
  induction a as [|x a IH]; [reflexivity |].
  rewrite app_cons. simpl. rewrite IH. now rewrite andb_assoc.
Qed.

Lemma count_char_app c (a b : string) :
  count_char c (a +:+ b) = count_char c a + count_char c b.
Proof.
  induction a as [|x a IH]; [reflexivity |].
  rewrite app_cons. simpl. rewrite IH. lia.
Qed.

Lemma count_char_absent c (s : string) : mem c s = false -> count_char c s = 0.
Proof.
  induction s as [|x s IH]; simpl; [reflexivity |].
  destruct (Ascii.eqb c x); [discriminate | exact IH].
Qed.

(** A property of all characters excludes every character without it. *)
Lemma all_excludes p c (s : string) : all p s = true -> p c = false -> mem c s = false.
Proof.
  intros Hall Hc. induction s as [|x s IH]; simpl in *; [reflexivity |].
  apply andb_prop in Hall as [Hx Hs].
  destruct (Ascii.eqb_spec c x) as [->|_]; [congruence | auto].
Qed.

Lemma strip_prefix_app (pat r : string) : strip_prefix pat (pat +:+ r) = Some r.
Proof.
  induction pat as [|a pat IH]; [reflexivity |].
  rewrite app_cons. simpl. now rewrite Ascii.eqb_refl.
Qed.

Lemma strip_prefix_Some (pat s r : string) :
  strip_prefix pat s = Some r -> s = pat +:+ r.
Proof.
  revert s. induction pat as [|a pat IH]; intros s; simpl.
  - now intros [= ->].
  - destruct s as [|b s]; [discriminate |].
    destruct (Ascii.eqb_spec a b) as [->|_]; [| discriminate].
    intros Hs. rewrite app_cons. now rewrite (IH _ Hs).
Qed.

(** A pattern without [c] cannot run across the seam of [t +:+ s] when
    [s] is empty or begins with [c]. *)
Lemma strip_prefix_seam c (pat t s : string) :
  mem c pat = false -> starts c s = true ->
  strip_prefix pat (t +:+ s) = (fun r => r +:+ s) <$> strip_prefix pat t.
Proof.
  revert t. induction pat as [|a pat IH]; intros t Hpat Hs; [reflexivity |].
  simpl in Hpat. destruct (Ascii.eqb_spec c a) as [->|Hca]; [discriminate |].
  destruct t as [|d t].
  - rewrite app_nil_l. simpl.
    destruct s as [|e s]; [reflexivity |]. simpl in Hs.
    apply Ascii.eqb_eq in Hs as <-.
    destruct (Ascii.eqb_spec a c) as [->|_]; [congruence | reflexivity].
  - rewrite app_cons. simpl.
    destruct (Ascii.eqb a d); [now apply IH | reflexivity].
Qed.

Lemma occurrences_absent c (pat s : string) :
  mem c s = false -> occurrences (String c pat) s = [].
Proof.
  induction s as [|x s IH]; simpl; [reflexivity |].
  destruct (Ascii.eqb c x); [discriminate | exact IH].
Qed.

(** The occurrences in [t +:+ s] are those in [t] and those in [s]. *)
Lemma occurrences_seam c (pat t s : string) :
  mem c pat = false -> starts c s = true ->
  occurrences (String c pat) (t +:+ s)
  = map (fun r => r +:+ s) (occurrences (String c pat) t)
      ++ occurrences (String c pat) s.
Proof.
  intros Hpat Hs. induction t as [|d t IH]; [reflexivity |].
  rewrite app_cons. cbn [occurrences strip_prefix].
  destruct (Ascii.eqb c d).
  - rewrite (strip_prefix_seam c) by assumption.
    destruct (strip_prefix pat t); simpl; now rewrite IH.
  - exact IH.
Qed.

Lemma count_sub_seam c (pat t s : string) :
  mem c pat = false -> starts c s = true ->
  count_sub (String c pat) (t +:+ s)
  = count_sub (String c pat) t + count_sub (String c pat) s.
Proof.
  intros Hpat Hs. unfold count_sub.
  rewrite (occurrences_seam c) by assumption.
  now rewrite length_app, length_map.
Qed.

Lemma count_sub_absent c (pat s : string) :
  mem c s = false -> count_sub (String c pat) s = 0.
Proof. intros Hs. unfold count_sub. now rewrite occurrences_absent. Qed.

Lemma take_until_stop c (u r : string) :
  mem c u = false -> take_until c (u +:+ String c r) = u.
Proof.
  induction u as [|x u IH].
  - rewrite app_nil_l. simpl. now rewrite Ascii.eqb_refl.
  - rewrite app_cons. simpl.
    destruct (Ascii.eqb c x); [discriminate |]. intros Hu. now rewrite IH.
Qed.

Lemma concat_app (l1 l2 : list string) :
  concat (l1 ++ l2) = concat l1 +:+ concat l2.
Proof.
  induction l1 as [|s l1 IH]; cbn [concat List.app]; [reflexivity |].
  now rewrite IH, app_assoc.
Qed.

Lemma starts_app c (a b : string) :
  starts c b = true -> starts c a = true -> starts c (a +:+ b) = true.
Proof. destruct a; [now rewrite app_nil_l | now rewrite app_cons]. Qed.

End StrFacts.

(** ** Base64 *)

Module Base64Facts.
Import Base64.

(** Induction over lists three elements at a time. *)
Lemma list_ind3 {A} (P : list A -> Prop) :
  P [] -> (forall a, P [a]) -> (forall a b, P [a; b]) ->
  (forall a b c l, P l -> P (a :: b :: c :: l)) ->
  forall l, P l.
Proof.
  intros H0 H1 H2 H3.
  fix IH 1. intros [|a [|b [|c l]]]; [exact H0 | apply H1 | apply H2 |].
  apply H3, IH.
Qed.

Lemma table_ok (i : N) : (i < 64)%N -> table_entry_ok i = true.
Proof.
  intros Hi.
  assert (Hall : forallb table_entry_ok (map N.of_nat (seq 0 64)) = true)
    by (vm_compute; reflexivity).
  rewrite forallb_forall in Hall. apply Hall.
  rewrite <- (N2Nat.id i). apply in_map, in_seq. lia.
Qed.

Lemma sextet_value (i : N) : (i < 64)%N -> value (sextet i) = Some i.
Proof.
  intros Hi. pose proof (table_ok i Hi) as H. unfold table_entry_ok in H.
  repeat (apply andb_prop in H as [H _]).
  destruct (value (sextet i)) as [j|]; [| discriminate].
  apply N.eqb_eq in H. now subst.
Qed.

Lemma sextet_b64_char (i : N) :
  (i < 64)%N -> is_b64_char (ascii_of_byte (sextet i)) = true.
Proof.
  intros Hi. pose proof (table_ok i Hi) as H. unfold table_entry_ok in H.
  apply andb_prop in H as [H _]. apply andb_prop in H as [H _].
  now apply andb_prop in H as [_ H].
Qed.

Lemma sextet_ascii (i : N) : (i < 64)%N -> is_ascii_byte (sextet i) = true.
Proof.
  intros Hi. pose proof (table_ok i Hi) as H. unfold table_entry_ok in H.
  apply andb_prop in H as [H _]. now apply andb_prop in H as [_ H].
Qed.

(** The test vectors of RFC 4648, section 10, and one with high bytes. *)
Example b64encode_foobar :
  map (fun s => string_of_list_byte (b64encode (list_byte_of_string s)))
      ["f"; "fo"; "foo"; "foob"; "fooba"; "foobar"]
  = ["Zg=="; "Zm8="; "Zm9v"; "Zm9vYg=="; "Zm9vYmE="; "Zm9vYmFy"].
Proof. vm_compute. reflexivity. Qed.

Example b64encode_high_bytes :
  string_of_list_byte (b64encode [xff; xfe; xfd; x00; x01]) = "//79AAE=".
Proof. vm_compute. reflexivity. Qed.

Lemma value_pad : value pad = None.
Proof. reflexivity. Qed.

Lemma is_pad_pad : is_pad pad = true.
Proof. reflexivity. Qed.

Lemma pad_b64_char : is_b64_char (ascii_of_byte pad) = true.
Proof. reflexivity. Qed.

Lemma pad_ascii : is_ascii_byte pad = true.
Proof. reflexivity. Qed.

(** The 6-bit groups are 6-bit values. *)
Lemma s0_bound a : (s0 a < 64)%N.
Proof. unfold s0. pose proof (Byte.to_N_bounded a). lia. Qed.

Lemma s1_bound a b : (s1 a b < 64)%N.
Proof.
  unfold s1. pose proof (Byte.to_N_bounded a). pose proof (Byte.to_N_bounded b). lia.
Qed.

Lemma s2_bound b c : (s2 b c < 64)%N.
Proof.
  unfold s2. pose proof (Byte.to_N_bounded b). pose proof (Byte.to_N_bounded c). lia.
Qed.

Lemma s3_bound c : (s3 c < 64)%N.
Proof. unfold s3. pose proof (Byte.to_N_bounded c). lia. Qed.

(** Reassembling the bytes of a group from its 6-bit groups. *)
Lemma first_byte a b : Byte.of_N (s0 a * 4 + s1 a b / 16) = Some a.
Proof.
  replace (s0 a * 4 + s1 a b / 16)%N with (Byte.to_N a); [apply Byte.of_to_N |].
  unfold s0, s1. pose proof (Byte.to_N_bounded a). pose proof (Byte.to_N_bounded b). lia.
Qed.

Lemma second_byte a b c :
  Byte.of_N ((s1 a b mod 16) * 16 + s2 b c / 4) = Some b.
Proof.
  replace ((s1 a b mod 16) * 16 + s2 b c / 4)%N with (Byte.to_N b);
    [apply Byte.of_to_N |].
  unfold s1, s2. pose proof (Byte.to_N_bounded a).
  pose proof (Byte.to_N_bounded b). pose proof (Byte.to_N_bounded c). lia.
Qed.

Lemma third_byte b c : Byte.of_N ((s2 b c mod 4) * 64 + s3 c) = Some c.
Proof.
  replace ((s2 b c mod 4) * 64 + s3 c)%N with (Byte.to_N c); [apply Byte.of_to_N |].
  unfold s2, s3. pose proof (Byte.to_N_bounded b). pose proof (Byte.to_N_bounded c). lia.
Qed.

(** Decoding undoes encoding. *)
Lemma b64decode_b64encode (bs : list byte) : b64decode (b64encode bs) = Some bs.
Proof.
  induction bs as [| a | a b | a b c l IH] using list_ind3.
  - reflexivity.
  - cbn [b64encode b64decode].
    rewrite (sextet_value _ (s0_bound a)), (sextet_value _ (s1_bound a x00)).
    rewrite value_pad, is_pad_pad, first_byte. reflexivity.
  - cbn [b64encode b64decode].
    rewrite (sextet_value _ (s0_bound a)), (sextet_value _ (s1_bound a b)).
    rewrite (sextet_value _ (s2_bound b x00)).
    rewrite value_pad, is_pad_pad, first_byte, second_byte. reflexivity.
  - cbn [b64encode b64decode].
    rewrite (sextet_value _ (s0_bound a)), (sextet_value _ (s1_bound a b)).
    rewrite (sextet_value _ (s2_bound b c)), (sextet_value _ (s3_bound c)).
    rewrite first_byte, second_byte, third_byte, IH. reflexivity.
Qed.

Lemma b64encode_inj (bs bs' : list byte) : b64encode bs = b64encode bs' -> bs = bs'.
Proof.
  intros Heq. apply (f_equal b64decode) in Heq.
  rewrite !b64decode_b64encode in Heq. now injection Heq.
Qed.

(** Base64 text is made of ASCII base64 characters. *)
Lemma sextet_b64_byte (i : N) : (i < 64)%N -> b64_byte (sextet i) = true.
Proof.
  intros Hi. unfold b64_byte. now rewrite sextet_b64_char, sextet_ascii.
Qed.

Lemma b64encode_bytes (bs : list byte) : forallb b64_byte (b64encode bs) = true.
Proof.
  induction bs as [| a | a b | a b c l IH] using list_ind3;
    cbn [b64encode forallb];
    rewrite ?sextet_b64_byte
      by first [apply s0_bound | apply s1_bound | apply s2_bound | apply s3_bound];
    rewrite ?IH; reflexivity.
Qed.

Lemma b64encode_ascii (bs : list byte) : forallb is_ascii_byte (b64encode bs) = true.
Proof.
  pose proof (b64encode_bytes bs) as H. rewrite forallb_forall in H.
  apply forallb_forall. intros c Hc. specialize (H c Hc).
  unfold b64_byte in H. now apply andb_prop in H as [_ H].
Qed.

Lemma string_of_b64_bytes (cs : list byte) :
  forallb b64_byte cs = true ->
  Str.all is_b64_char (string_of_list_byte cs) = true.
Proof.
  induction cs as [|c cs IH]; [reflexivity |].
  cbn [forallb]. intros H. apply andb_prop in H as [Hc Hcs].
  change (string_of_list_byte (c :: cs))
    with (String (ascii_of_byte c) (string_of_list_byte cs)).
  cbn [Str.all]. rewrite (IH Hcs).
  unfold b64_byte in Hc. apply andb_prop in Hc as [-> _]. reflexivity.
Qed.

Lemma b64encode_alphabet (bs : list byte) :
  Str.all is_b64_char (string_of_list_byte (b64encode bs)) = true.
Proof. apply string_of_b64_bytes, b64encode_bytes. Qed.

(** Four characters for every three bytes, rounded up. *)
Lemma b64encode_length (bs : list byte) :
  length (b64encode bs) = 4 * ((length bs + 2) / 3).
Proof.
  induction bs as [| a | a b | a b c l IH] using list_ind3;
    try reflexivity.
  cbn [b64encode length]. rewrite IH.
  replace (S (S (S (length l))) + 2) with (1 * 3 + (length l + 2)) by lia.
  rewrite Nat.div_add_l by lia. lia.
Qed.

(** The characters of base64 text are harmless inside an attribute. *)
Lemma b64_char_not_dquote : is_b64_char Str.dquote = false.
Proof. reflexivity. Qed.

Lemma b64_char_not_lt : is_b64_char Str.lt_sign = false.
Proof. reflexivity. Qed.

Lemma b64_char_not_gt : is_b64_char Str.gt_sign = false.
Proof. reflexivity. Qed.

Lemma string_of_list_byte_inj (l l' : list byte) :
  string_of_list_byte l = string_of_list_byte l' -> l = l'.
Proof.
  intros Heq. apply (f_equal list_byte_of_string) in Heq.
  now rewrite !list_byte_of_string_of_list_byte in Heq.
Qed.

End Base64Facts.

(** ** The gallery document *)

Module GalleryFacts.
Import Str StrFacts.

(** The [for] loop appends the tags in list order. *)
Lemma fold_tags (image_urls : list string) (acc : string) :
  fold_left (fun html_content url => html_content +:+ img_tag url) image_urls acc
  = acc +:+ concat (map img_tag image_urls).
Proof.
  revert acc. induction image_urls as [|u l IH]; intros acc; cbn [fold_left map concat].
  - now rewrite app_nil_r.
  - now rewrite IH, app_assoc.
Qed.

Lemma html_document_eq (image_urls : list string) :
  html_document image_urls
  = html_header +:+ (concat (map img_tag image_urls) +:+ html_footer).
Proof. unfold html_document. now rewrite fold_tags, app_assoc. Qed.

(** The literal of the notebook has 905 characters. *)
Example html_header_length : String.length html_header = 905.
Proof. vm_compute. reflexivity. Qed.

Lemma html_header_eq : html_header = html_prelude +:+ gallery_open +:+ gallery_indent.
Proof. reflexivity. Qed.

Lemma html_footer_eq : html_footer = gallery_close +:+ html_tail.
Proof. reflexivity. Qed.

(** The document, cut at the boundaries of the gallery container. *)
Lemma html_document_parts (image_urls : list string) :
  html_document image_urls
  = html_prelude +:+ gallery_open
      +:+ (gallery_indent +:+ concat (map img_tag image_urls))
      +:+ gallery_close +:+ html_tail.
Proof.
  rewrite html_document_eq, html_header_eq, html_footer_eq.
  now rewrite !app_assoc.
Qed.

(** A tag begins with [<]; the rest of it has no [<] unless the URL has. *)
Lemma img_tag_cons (url : string) : img_tag url = String lt_sign (tag_rest url).
Proof. reflexivity. Qed.

Lemma tag_rest_lt (url : string) :
  mem lt_sign url = false -> mem lt_sign (tag_rest url) = false.
Proof. intros Hu. unfold tag_rest. rewrite !mem_app, Hu. reflexivity. Qed.

Lemma tags_start (image_urls : list string) (rest : string) :
  starts lt_sign rest = true ->
  starts lt_sign (concat (map img_tag image_urls) +:+ rest) = true.
Proof.
  intros Hr. destruct image_urls as [|u l]; [exact Hr |].
  cbn [map concat]. rewrite img_tag_cons. reflexivity.
Qed.

Lemma attribute_safe_spec (s : string) :
  attribute_safe s = true <-> mem dquote s = false /\ mem lt_sign s = false.
Proof.
  unfold attribute_safe. rewrite andb_true_iff, !negb_true_iff. reflexivity.
Qed.

(** The occurrences of [img_open] in one tag followed by [rest]. *)
Lemma occurrences_tag (url rest : string) :
  mem lt_sign url = false -> starts lt_sign rest = true ->
  occurrences img_open (img_tag url +:+ rest)
  = (url +:+ img_close +:+ rest) :: occurrences img_open rest.
Proof.
  intros Hu Hr.
  change img_open with (String lt_sign ("img src=" +:+ q)).
  rewrite (occurrences_seam lt_sign) by (try reflexivity; assumption).
  rewrite img_tag_cons at 1. cbn [occurrences].
  rewrite (occurrences_absent lt_sign) by now apply tag_rest_lt.
  change (String lt_sign ("img src=" +:+ q)) with img_open.
  rewrite <- img_tag_cons. unfold img_tag. rewrite strip_prefix_app.
  cbn [map List.app]. now rewrite app_assoc.
Qed.

(** Reading the [src] attributes back gives the list the document was
    built from. *)
Lemma img_srcs_tags (image_urls : list string) (rest : string) :
  Forall (fun u => attribute_safe u = true) image_urls ->
  starts lt_sign rest = true ->
  img_srcs (concat (map img_tag image_urls) +:+ rest) = image_urls ++ img_srcs rest.
Proof.
  intros Hsafe Hr. induction Hsafe as [|u l Hu Hl IH]; [reflexivity |].
  apply attribute_safe_spec in Hu as [Hq Hlt].
  cbn [map concat]. rewrite app_assoc. unfold img_srcs in *.
  rewrite occurrences_tag by (try assumption; now apply tags_start).
  cbn [map List.app]. rewrite IH. f_equal.
  unfold img_close. rewrite !app_assoc.
  change (q +:+ " alt=" +:+ q +:+ "Generated Image" +:+ q +:+ "/>"
            +:+ concat (map img_tag l) +:+ rest)
    with (String dquote (" alt=" +:+ q +:+ "Generated Image" +:+ q +:+ "/>"
                           +:+ concat (map img_tag l) +:+ rest)).
  now apply take_until_stop.
Qed.

Lemma img_srcs_document (image_urls : list string) :
  Forall (fun u => attribute_safe u = true) image_urls ->
  img_srcs (html_document image_urls) = image_urls.
Proof.
  intros Hsafe. rewrite html_document_eq. unfold img_srcs.
  change img_open with (String lt_sign ("img src=" +:+ q)).
  rewrite (occurrences_seam lt_sign)
    by (try reflexivity; now apply tags_start).
  change (String lt_sign ("img src=" +:+ q)) with img_open.
  replace (occurrences img_open html_header) with (@nil string)
    by (vm_compute; reflexivity).
  cbn [map List.app]. fold (img_srcs (concat (map img_tag image_urls) +:+ html_footer)).
  rewrite img_srcs_tags by (try assumption; reflexivity).
  replace (img_srcs html_footer) with (@nil string) by (vm_compute; reflexivity).
  now rewrite List.app_nil_r.
Qed.

(** Counting a pattern that begins with [<] and has no other [<]: the
    tags contribute one by one. *)
Lemma count_sub_tags (pat : string) (k : nat) (image_urls : list string) (rest : string) :
  mem lt_sign pat = false ->
  (forall u, mem lt_sign u = false -> count_sub (String lt_sign pat) (img_tag u) = k) ->
  Forall (fun u => attribute_safe u = true) image_urls ->
  starts lt_sign rest = true ->
  count_sub (String lt_sign pat) (concat (map img_tag image_urls) +:+ rest)
  = k * length image_urls + count_sub (String lt_sign pat) rest.
Proof.
  intros Hpat Htag Hsafe Hr. induction Hsafe as [|u l Hu Hl IH];
    [cbn [map concat length]; rewrite app_nil_l; lia |].
  apply attribute_safe_spec in Hu as [_ Hlt].
  cbn [map concat length]. rewrite app_assoc.
  rewrite (count_sub_seam lt_sign) by (try assumption; now apply tags_start).
  rewrite IH, (Htag u Hlt). lia.
Qed.

Lemma count_sub_document (pat : string) (k : nat) (image_urls : list string) :
  mem lt_sign pat = false ->
  (forall u, mem lt_sign u = false -> count_sub (String lt_sign pat) (img_tag u) = k) ->
  Forall (fun u => attribute_safe u = true) image_urls ->
  count_sub (String lt_sign pat) (html_document image_urls)
  = count_sub (String lt_sign pat) html_header
    + k * length image_urls
    + count_sub (String lt_sign pat) html_footer.
Proof.
  intros Hpat Htag Hsafe. rewrite html_document_eq.
  rewrite (count_sub_seam lt_sign) by (try assumption; now apply tags_start).
  rewrite (count_sub_tags pat k) by (try assumption; reflexivity). lia.
Qed.

(** What one tag contributes to each of the patterns of interest. *)
Lemma count_tag (pat : string) (url : string) :
  mem lt_sign url = false ->
  count_sub (String lt_sign pat) (img_tag url)
  = match strip_prefix pat (tag_rest url) with Some _ => 1 | None => 0 end.
Proof.
  intros Hu. rewrite img_tag_cons. unfold count_sub. cbn [occurrences strip_prefix].
  rewrite Ascii.eqb_refl.
  rewrite (occurrences_absent lt_sign) by now apply tag_rest_lt.
  now destruct (strip_prefix pat (tag_rest url)).
Qed.

Lemma count_img_start_tag (url : string) :
  mem lt_sign url = false -> count_sub img_start (img_tag url) = 1.
Proof.
  intros Hu. change img_start with (String lt_sign "img").
  rewrite count_tag by assumption.
  change (tag_rest url) with ("img" +:+ (" src=" +:+ q +:+ url +:+ img_close)).
  now rewrite strip_prefix_app.
Qed.

Lemma count_gallery_open_tag (url : string) :
  mem lt_sign url = false -> count_sub gallery_open (img_tag url) = 0.
Proof.
  intros Hu. change gallery_open with (String lt_sign ("div class=" +:+ q +:+ "gallery" +:+ q +:+ ">")).
  rewrite count_tag by assumption. reflexivity.
Qed.

Lemma count_gallery_close_tag (url : string) :
  mem lt_sign url = false -> count_sub gallery_close (img_tag url) = 0.
Proof.
  intros Hu. change gallery_close with (String lt_sign "/div>").
  rewrite count_tag by assumption. reflexivity.
Qed.

End GalleryFacts.

(** ** The cells *)

Section CellFacts.
Context {E : Env}.
Import Str StrFacts Base64 Base64Facts GalleryFacts.

(** *** [process_image] *)

Lemma buffer_value (image : Image) :
  bio_getvalue (bio_seek (image_save image BytesIO_new) 0) = save_png image.
Proof.
  unfold bio_getvalue, bio_seek, image_save, bio_write, BytesIO_new. simpl.
  rewrite skipn_nil. apply List.app_nil_r.
Qed.

(** The three ways a call can end. *)
Lemma process_image_eq (prompt : string) (w : World) :
  process_image prompt w =
  match pipeline_call prompt turbo (model w) with
  | (inl e, m') => (inl e, on_model prompt m' w)
  | (inr [], m') => (inl IndexError, on_model prompt m' w)
  | (inr (image :: _), m') => (inr (data_uri_of image), on_model prompt m' w)
  end.
Proof.
  unfold process_image, bind, pipeline.
  destruct (pipeline_call prompt turbo (model w)) as [[e | [| image rest]] m'];
    try reflexivity.
  cbn [index0 ret]. rewrite buffer_value. unfold decode_utf8.
  rewrite b64encode_ascii. reflexivity.
Qed.

Lemma process_image_frame (prompt : string) (w : World) :
  same_outside w (snd (process_image prompt w))
  /\ model_calls (snd (process_image prompt w)) = model_calls w ++ [prompt].
Proof.
  rewrite process_image_eq.
  destruct (pipeline_call prompt turbo (model w)) as [[e | [| image rest]] m'];
    repeat split.
Qed.

(** *** The list comprehension *)

Lemma comprehension_app {A} (body : Z -> M A) (xs ys : list Z) (w : World) :
  comprehension body (xs ++ ys) w =
  match comprehension body xs w with
  | (inl e, w1) => (inl e, w1)
  | (inr a, w1) =>
      match comprehension body ys w1 with
      | (inl e, w2) => (inl e, w2)
      | (inr b, w2) => (inr (a ++ b), w2)
      end
  end.
Proof.
  revert w. induction xs as [|x xs IH]; intros w; cbn [List.app comprehension].
  - unfold ret. cbn beta iota.
    destruct (comprehension body ys w) as [[e | b] w2]; reflexivity.
  - unfold bind, ret. destruct (body x w) as [[e | a] w1]; [reflexivity |].
    rewrite IH.
    destruct (comprehension body xs w1) as [[e | l] w2]; [reflexivity |].
    destruct (comprehension body ys w2) as [[e | b] w3]; reflexivity.
Qed.

Lemma same_outside_refl (w : World) : same_outside w w.
Proof. repeat split. Qed.

Lemma same_outside_trans (w1 w2 w3 : World) :
  same_outside w1 w2 -> same_outside w2 w3 -> same_outside w1 w3.
Proof.
  unfold same_outside. intros (? & ? & ?) (? & ? & ?). repeat split; congruence.
Qed.

(** Generating images touches neither files nor browser. *)
Lemma comprehension_frame (prompt : string) (xs : list Z) (w : World) :
  same_outside w (snd (comprehension (fun _ => process_image prompt) xs w)).
Proof.
  revert w. induction xs as [|x xs IH]; intros w; cbn [comprehension].
  - apply same_outside_refl.
  - unfold bind, ret. pose proof (process_image_frame prompt w) as [Hf _].
    destruct (process_image prompt w) as [[e | a] w1]; cbn [snd] in *; [exact Hf |].
    specialize (IH w1).
    destruct (comprehension _ xs w1) as [[e | l] w2]; cbn [snd] in *;
      exact (same_outside_trans _ _ _ Hf IH).
Qed.

(** A comprehension that returns has made one call per element. *)
Lemma comprehension_calls (prompt : string) (xs : list Z) (w w' : World)
    (l : list string) :
  comprehension (fun _ => process_image prompt) xs w = (inr l, w') ->
  model_calls w' = model_calls w ++ repeat prompt (length xs)
  /\ length l = length xs.
Proof.
  revert w l. induction xs as [|x xs IH]; intros w l; cbn [comprehension].
  - unfold ret. intros [= <- <-]. cbn. now rewrite List.app_nil_r.
  - unfold bind, ret. pose proof (process_image_frame prompt w) as [_ Hc].
    destruct (process_image prompt w) as [[e | a] w1]; cbn [snd] in *; [discriminate |].
    destruct (comprehension _ xs w1) as [[e | l1] w2] eqn:Hrec; [discriminate |].
    intros [= <- <-]. apply IH in Hrec as [-> Hlen].
    cbn [length]. rewrite Hc, Hlen, <- List.app_assoc. split; reflexivity.
Qed.

Lemma range_length (n : Z) : length (range n) = Z.to_nat n.
Proof. unfold range. now rewrite length_map, length_seq. Qed.

Lemma range_split (k n : Z) :
  (0 <= k < n)%Z ->
  exists x rest, range n = range k ++ x :: rest.
Proof.
  intros Hk. unfold range.
  replace (Z.to_nat n) with (Z.to_nat k + S (Z.to_nat n - Z.to_nat k - 1)) by lia.
  rewrite seq_app, map_app. cbn [seq map]. eauto.
Qed.

(** When the model serves [n] images in a row, the comprehension
    returns their Data URIs in that order. *)
Lemma comprehension_served (prompt : string) (xs : list Z) (w : World)
    (images : list Image) :
  served prompt (length xs) (model w) = Some images ->
  comprehension (fun _ => process_image prompt) xs w
  = (inr (map data_uri_of images), after_generation prompt (length xs) w).
Proof.
  revert w images. induction xs as [|x xs IH]; intros w images Hs.
  - injection Hs as <-. cbn. unfold ret, after_generation. cbn.
    rewrite List.app_nil_r. now destruct w.
  - cbn [length served comprehension] in *. unfold bind at 1.
    rewrite process_image_eq.
    destruct (pipeline_call prompt turbo (model w)) as [[e | [| image rest]] m'] eqn:Hcall;
      try discriminate.
    destruct (served prompt (length xs) m') as [images' |] eqn:Hs'; [| discriminate].
    injection Hs as <-. unfold bind.
    rewrite (IH (on_model prompt m' w) images') by exact Hs'.
    unfold ret, after_generation, on_model. cbn.
    rewrite Hcall. cbn. now rewrite <- List.app_assoc.
Qed.

(** *** [create_html_page_with_images] *)

Lemma mkstemp_inner_fresh (n : nat) (suffix : string) (files : gmap string string)
    (k0 : nat) (path : string) (k : nat) :
  mkstemp_inner n suffix files k0 = inr (path, k) ->
  files !! path = None /\ path = tmp_path suffix (pred k) /\ k0 < k <= k0 + n.
Proof.
  revert k0. induction n as [|n IH]; intros k0; cbn [mkstemp_inner]; [discriminate |].
  destruct (files !! tmp_path suffix k0) eqn:Hlook.
  - intros Hrec. apply IH in Hrec as (? & ? & ?). repeat split; try assumption; lia.
  - intros [= <- <-]. cbn. repeat split; try assumption; lia.
Qed.

Lemma create_html_page_with_images_eq (image_urls : list string) (w : World) :
  create_html_page_with_images image_urls w =
  match mkstemp_inner TMP_MAX ".html" (fs w) (names_drawn w) with
  | inl e => (inl e, w)
  | inr (path, k) =>
      (inr path, on_fs (<[path := html_document image_urls]> (fs w)) k w)
  end.
Proof.
  unfold create_html_page_with_images, bind, NamedTemporaryFile.
  destruct (mkstemp_inner TMP_MAX ".html" (fs w) (names_drawn w)) as [e | [path k]];
    [reflexivity |].
  unfold file_write, ret, on_fs. cbn.
  rewrite lookup_insert_eq. cbn. rewrite insert_insert_eq. reflexivity.
Qed.

(** *** [display_in_browser] *)

Lemma display_in_browser_eq (html_file_path : string) (w : World) :
  display_in_browser html_file_path w
  = (inr tt, on_browser ("file://" +:+ html_file_path) 2 w).
Proof. reflexivity. Qed.

(** *** Data URIs *)

Lemma data_uri_of_is_data_uri (image : Image) : is_data_uri (data_uri_of image) = true.
Proof.
  unfold is_data_uri, data_uri_of. rewrite strip_prefix_app.
  apply b64encode_alphabet.
Qed.

Lemma data_uri_safe (s : string) : is_data_uri s = true -> attribute_safe s = true.
Proof.
  unfold is_data_uri. destruct (strip_prefix data_uri_prefix s) as [payload|] eqn:Hp;
    [| discriminate].
  intros Hall. apply strip_prefix_Some in Hp as ->.
  apply attribute_safe_spec. rewrite !mem_app.
  rewrite (all_excludes _ dquote _ Hall b64_char_not_dquote).
  rewrite (all_excludes _ lt_sign _ Hall b64_char_not_lt). split; reflexivity.
Qed.

Lemma data_uris_safe (l : list string) :
  Forall (fun u => is_data_uri u = true) l ->
  Forall (fun u => attribute_safe u = true) l.
Proof. induction 1; constructor; auto using data_uri_safe. Qed.

Lemma data_uri_of_inj (i j : Image) :
  data_uri_of i = data_uri_of j <-> save_png i = save_png j.
Proof.
  unfold data_uri_of. split; [| now intros ->].
  intros Heq. apply String.app_inj in Heq.
  now apply b64encode_inj, string_of_list_byte_inj.
Qed.

Lemma NoDup_map_iff {A B C} (f : A -> B) (g : A -> C) (l : list A) :
  (forall x y, f x = f y <-> g x = g y) ->
  List.NoDup (map f l) <-> List.NoDup (map g l).
Proof.
  intros Hfg. induction l as [|a l IH]; cbn [map]; [split; constructor |].
  rewrite !NoDup_cons_iff, IH, !in_map_iff.
  split; intros [Hnin Hnd]; split; try assumption;
    intros (x & Hx & Hin); apply Hnin; exists x; split; try assumption;
    apply Hfg; exact Hx.
Qed.

End CellFacts.

(** ** The notebook as a whole *)

Section PipelineFacts.
Context {E : Env}.
Import Str StrFacts Base64 Base64Facts GalleryFacts.

Lemma served_length (prompt : string) (n : nat) (m : ModelState) (images : list Image) :
  served prompt n m = Some images -> length images = n.
Proof.
  revert m images. induction n as [|n IH]; intros m images; cbn [served].
  - now intros [= <-].
  - destruct (pipeline_call prompt turbo m) as [[e | [| image rest]] m'];
      try discriminate.
    destruct (served prompt n m') as [l |] eqn:Hs; [| discriminate].
    intros [= <-]. cbn. f_equal. exact (IH _ _ Hs).
Qed.

Lemma data_uris_of_images (images : list Image) :
  Forall (fun u => is_data_uri u = true) (map data_uri_of images).
Proof.
  induction images; constructor; auto using data_uri_of_is_data_uri.
Qed.

Lemma count_img_start_document (image_urls : list string) :
  Forall (fun u => attribute_safe u = true) image_urls ->
  count_sub img_start (html_document image_urls) = length image_urls.
Proof.
  intros Hsafe. change img_start with (String lt_sign "img").
  rewrite (count_sub_document "img" 1) by
    (try assumption; try reflexivity; exact count_img_start_tag).
  replace (count_sub (String lt_sign "img") html_header) with 0
    by (vm_compute; reflexivity).
  replace (count_sub (String lt_sign "img") html_footer) with 0
    by (vm_compute; reflexivity).
  lia.
Qed.

Lemma count_gallery_open_document (image_urls : list string) :
  Forall (fun u => attribute_safe u = true) image_urls ->
  count_sub gallery_open (html_document image_urls) = 1.
Proof.
  intros Hsafe.
  change gallery_open
    with (String lt_sign ("div class=" +:+ q +:+ "gallery" +:+ q +:+ ">")).
  rewrite (count_sub_document _ 0) by
    (try assumption; try reflexivity; exact count_gallery_open_tag).
  change (String lt_sign ("div class=" +:+ q +:+ "gallery" +:+ q +:+ ">"))
    with gallery_open.
  replace (count_sub gallery_open html_header) with 1 by (vm_compute; reflexivity).
  replace (count_sub gallery_open html_footer) with 0 by (vm_compute; reflexivity).
  lia.
Qed.

(** The content of the container: the indentation and the tags. *)
Lemma container_content (image_urls : list string) :
  Forall (fun u => attribute_safe u = true) image_urls ->
  let content := gallery_indent +:+ concat (map img_tag image_urls) in
  count_sub gallery_close content = 0
  /\ count_sub img_start content = length image_urls
  /\ img_srcs content = image_urls.
Proof.
  intros Hsafe content. subst content.
  assert (Hstart : starts lt_sign (concat (map img_tag image_urls)) = true).
  { rewrite <- (app_nil_r (concat _)). now apply tags_start. }
  repeat split.
  - change gallery_close with (String lt_sign "/div>").
    rewrite (count_sub_seam lt_sign) by (try reflexivity; assumption).
    rewrite <- (app_nil_r (concat _)).
    rewrite (count_sub_tags "/div>" 0)
      by (try assumption; try reflexivity; exact count_gallery_close_tag).
    reflexivity.
  - change img_start with (String lt_sign "img").
    rewrite (count_sub_seam lt_sign) by (try reflexivity; assumption).
    rewrite <- (app_nil_r (concat _)).
    rewrite (count_sub_tags "img" 1)
      by (try assumption; try reflexivity; exact count_img_start_tag).
    replace (count_sub (String lt_sign "img") gallery_indent) with 0
      by (vm_compute; reflexivity).
    replace (count_sub (String lt_sign "img") EmptyString) with 0 by reflexivity.
    lia.
  - unfold img_srcs. change img_open with (String lt_sign ("img src=" +:+ q)).
    rewrite (occurrences_seam lt_sign) by (try reflexivity; assumption).
    change (String lt_sign ("img src=" +:+ q)) with img_open.
    replace (occurrences img_open gallery_indent) with (@nil string)
      by (vm_compute; reflexivity).
    cbn [map List.app]. rewrite <- (app_nil_r (concat _)).
    fold (img_srcs (concat (map img_tag image_urls) +:+ EmptyString)).
    rewrite img_srcs_tags by (try assumption; reflexivity).
    apply List.app_nil_r.
Qed.

(** The whole run when generation and file creation succeed. *)
Lemma main_with_eq (prompt : string) (number_of_images : Z) (w : World)
    (images : list Image) (path : string) (k : nat) :
  served prompt (Z.to_nat number_of_images) (model w) = Some images ->
  mkstemp_inner TMP_MAX ".html" (fs w) (names_drawn w) = inr (path, k) ->
  comprehension (fun _ => process_image prompt) (range number_of_images) w
  = (inr (map data_uri_of images),
     after_generation prompt (Z.to_nat number_of_images) w)
  /\ main_with prompt number_of_images w
     = (inr tt,
        on_browser ("file://" +:+ path) 2
          (on_fs (<[path := html_document (map data_uri_of images)]> (fs w)) k
             (after_generation prompt (Z.to_nat number_of_images) w))).
Proof.
  intros Hserved Hmk.
  assert (Hcomp : comprehension (fun _ => process_image prompt)
                    (range number_of_images) w
                  = (inr (map data_uri_of images),
                     after_generation prompt (Z.to_nat number_of_images) w)).
  { rewrite <- (range_length number_of_images).
    apply comprehension_served. now rewrite range_length. }
  split; [exact Hcomp |].
  unfold main_with, bind. rewrite Hcomp.
  rewrite create_html_page_with_images_eq.
  change (fs (after_generation prompt (Z.to_nat number_of_images) w)) with (fs w).
  change (names_drawn (after_generation prompt (Z.to_nat number_of_images) w))
    with (names_drawn w).
  rewrite Hmk. apply display_in_browser_eq.
Qed.

(** Whether the gallery builder raises does not depend on the list. *)
Lemma create_failure_independent (l l' : list string) (w : World) (e : exn) (w' : World) :
  create_html_page_with_images l w = (inl e, w') ->
  create_html_page_with_images l' w = (inl e, w').
Proof.
  rewrite !create_html_page_with_images_eq.
  destruct (mkstemp_inner TMP_MAX ".html" (fs w) (names_drawn w)) as [e0 | [path k]];
    [trivial | discriminate].
Qed.

Lemma tag_counts (url : string) :
  attribute_safe url = true ->
  mem gt_sign url = false ->
  count_char lt_sign (img_tag url) = 1
  /\ count_char gt_sign (img_tag url) = 1
  /\ count_char dquote (img_tag url) = 4.
Proof.
  intros Hsafe Hgt. apply attribute_safe_spec in Hsafe as [Hq Hlt].
  unfold img_tag. rewrite !count_char_app.
  rewrite (count_char_absent lt_sign url Hlt), (count_char_absent gt_sign url Hgt),
    (count_char_absent dquote url Hq).
  repeat split.
Qed.

Lemma img_srcs_tag (url : string) :
  attribute_safe url = true -> img_srcs (img_tag url) = [url].
Proof.
  intros Hsafe.
  replace (img_tag url) with (concat (map img_tag [url]) +:+ EmptyString)
    by (cbn [map concat]; now rewrite !app_nil_r).
  rewrite img_srcs_tags by (try reflexivity; now constructor).
  reflexivity.
Qed.

End PipelineFacts.

(* ===================================================================== *)
(** * The specification's claims                                          *)
(* ===================================================================== *)

Section Claims.
Context {E : Env}.
Import Str StrFacts Base64 Base64Facts GalleryFacts.

(** C1.  For every prompt and every count [N >= 0], when the model
    serves the [N] calls and the temporary file can be created, the run
    produces exactly [N] Data URIs, those of the images in the order the
    model returned them; the document written to the temporary file
    contains exactly [N] [<img] tags, and their [src] attributes, read
    in document order, are exactly that list of Data URIs. *)
Theorem pipeline_gallery_has_N_images_in_order
    (prompt : string) (N : Z) (w : World)
    (images : list Image) (path : string) (k : nat) :
  (0 <= N)%Z ->
  served prompt (Z.to_nat N) (model w) = Some images ->
  mkstemp_inner TMP_MAX ".html" (fs w) (names_drawn w) = inr (path, k) ->
  let image_urls := map data_uri_of images in
  let w1 := after_generation prompt (Z.to_nat N) w in
  let w2 := on_fs (<[path := html_document image_urls]> (fs w)) k w1 in
  comprehension (fun _ => process_image prompt) (range N) w = (inr image_urls, w1)
  /\ Z.of_nat (length image_urls) = N
  /\ Forall (fun u => is_data_uri u = true) image_urls
  /\ main_with prompt N w = (inr tt, on_browser ("file://" +:+ path) 2 w2)
  /\ fs w2 !! path = Some (html_document image_urls)
  /\ count_sub img_start (html_document image_urls) = Z.to_nat N
  /\ img_srcs (html_document image_urls) = image_urls.
Proof.
  intros HN Hserved Hmk image_urls w1 w2.
  destruct (main_with_eq prompt N w images path k Hserved Hmk) as [Hcomp Hmain].
  pose proof (data_uris_of_images images) as Huris.
  pose proof (data_uris_safe _ Huris) as Hsafe.
  assert (Hlen : length image_urls = Z.to_nat N).
  { unfold image_urls. rewrite length_map. exact (served_length _ _ _ _ Hserved). }
  repeat split.
  - exact Hcomp.
  - lia.
  - exact Huris.
  - exact Hmain.
  - apply lookup_insert_eq.
  - rewrite <- Hlen. now apply count_img_start_document.
  - now apply img_srcs_document.
Qed.

(** C2.  If, after [k] successful calls, the next of the [N] image
    generation calls raises, the run raises that same exception and
    delivers nothing: no later call is made, no file is created or
    written, no temporary name is drawn and no request reaches the
    browser. *)
Theorem generation_failure_delivers_nothing
    (prompt : string) (N k : Z) (w w1 w2 : World)
    (image_urls : list string) (e : exn) :
  (0 <= k < N)%Z ->
  comprehension (fun _ => process_image prompt) (range k) w = (inr image_urls, w1) ->
  process_image prompt w1 = (inl e, w2) ->
  main_with prompt N w = (inl e, w2)
  /\ fs w2 = fs w
  /\ names_drawn w2 = names_drawn w
  /\ browser w2 = browser w
  /\ model_calls w2 = model_calls w ++ repeat prompt (Z.to_nat k + 1).
Proof.
  intros Hk Hfirst Hfail.
  destruct (range_split k N Hk) as (x & rest & Hrange).
  assert (Hmain : main_with prompt N w = (inl e, w2)).
  { unfold main_with, bind. rewrite Hrange, comprehension_app, Hfirst.
    cbn [comprehension]. unfold bind. now rewrite Hfail. }
  pose proof (comprehension_frame prompt (range k) w) as Hf1.
  rewrite Hfirst in Hf1. cbn [snd] in Hf1.
  pose proof (process_image_frame prompt w1) as [Hf2 Hc2].
  rewrite Hfail in Hf2, Hc2. cbn [snd] in Hf2, Hc2.
  destruct (same_outside_trans _ _ _ Hf1 Hf2) as (Hfs & Hnames & Hbrowser).
  apply comprehension_calls in Hfirst as [Hc1 _].
  rewrite range_length in Hc1.
  repeat split; try assumption.
  rewrite Hc2, Hc1, <- List.app_assoc. f_equal.
  now rewrite repeat_app.
Qed.

(** C3.  Every string [process_image] returns is the prefix
    [data:image/png;base64,] followed by the base64 encoding of the PNG
    bytes of the image the pipeline returned: decoding the payload gives
    back exactly those bytes. *)
Theorem process_image_returns_png_data_uri
    (prompt : string) (w w' : World) (uri : string) :
  process_image prompt w = (inr uri, w') ->
  exists (image : Image) (others : list Image) (payload : string),
    pipeline_call prompt turbo (model w) = (inr (image :: others), model w')
    /\ payload = string_of_list_byte (b64encode (save_png image))
    /\ uri = data_uri_prefix +:+ payload
    /\ strip_prefix data_uri_prefix uri = Some payload
    /\ b64decode (list_byte_of_string payload) = Some (save_png image).
Proof.
  rewrite process_image_eq.
  destruct (pipeline_call prompt turbo (model w)) as [[e | [| image rest]] m'];
    try discriminate.
  intros [= <- <-]. exists image, rest, (string_of_list_byte (b64encode (save_png image))).
  split; [reflexivity |]. split; [reflexivity |]. split; [reflexivity |].
  split; [unfold data_uri_of; apply strip_prefix_app |].
  now rewrite list_byte_of_string_of_list_byte, b64decode_b64encode.
Qed.

(** C4.  The gallery builder is deterministic in the document: two
    invocations on the same list, in whatever states of the machine,
    leave the same content in the files whose paths they return, namely
    [html_document] of the list. *)
Theorem gallery_document_is_deterministic
    (image_urls : list string) (wa wb wa' wb' : World) (pa pb : string) :
  create_html_page_with_images image_urls wa = (inr pa, wa') ->
  create_html_page_with_images image_urls wb = (inr pb, wb') ->
  fs wa' !! pa = Some (html_document image_urls)
  /\ fs wb' !! pb = Some (html_document image_urls)
  /\ fs wa' !! pa = fs wb' !! pb.
Proof.
  rewrite !create_html_page_with_images_eq.
  destruct (mkstemp_inner TMP_MAX ".html" (fs wa) (names_drawn wa)) as [ea | [qa ka]];
    [discriminate |].
  destruct (mkstemp_inner TMP_MAX ".html" (fs wb) (names_drawn wb)) as [eb | [qb kb]];
    [discriminate |].
  intros [= <- <-] [= <- <-]. cbn [fs on_fs].
  rewrite !lookup_insert_eq. repeat split.
Qed.

(** The gallery document of a list of Data URIs, cut at the container. *)
Lemma gallery_document_structure (image_urls : list string) :
  Forall (fun u => is_data_uri u = true) image_urls ->
  let content := gallery_indent +:+ concat (map img_tag image_urls) in
  html_document image_urls
  = html_prelude +:+ gallery_open +:+ content +:+ gallery_close +:+ html_tail
  /\ count_sub gallery_open (html_document image_urls) = 1
  /\ count_sub gallery_close content = 0
  /\ count_sub img_start content = length image_urls
  /\ img_srcs content = image_urls
  /\ Forall (fun u => is_data_uri u = true) (img_srcs content)
  /\ count_sub img_start html_prelude = 0
  /\ count_sub img_start (gallery_close +:+ html_tail) = 0
  /\ (forall url, img_tag url = img_open +:+ url +:+ img_close).
Proof.
  intros Huris content.
  pose proof (data_uris_safe _ Huris) as Hsafe.
  destruct (container_content image_urls Hsafe) as (Hclose & Himg & Hsrcs).
  fold content in Hclose, Himg, Hsrcs.
  split; [apply html_document_parts |].
  split; [now apply count_gallery_open_document |].
  split; [exact Hclose |].
  split; [exact Himg |].
  split; [exact Hsrcs |].
  split; [now rewrite Hsrcs |].
  split; [vm_compute; reflexivity |].
  split; [vm_compute; reflexivity |].
  reflexivity.
Qed.

(** C5.  For every list of Data URIs, the empty one included, and
    whenever the temporary file can be created, the gallery builder
    returns the path of a file that holds a document with these
    properties: the opening tag of the gallery container occurs in it
    exactly once; what lies between that tag and the next closing
    [</div>] is the indentation followed by one [<img] tag per element of
    the list, and the [src] attributes of these tags are the elements of
    the list, unchanged and in order.  No [<img] tag lies outside the
    container. *)
Theorem gallery_container_holds_the_images
    (image_urls : list string) (w : World) (path : string) (k : nat) :
  Forall (fun u => is_data_uri u = true) image_urls ->
  mkstemp_inner TMP_MAX ".html" (fs w) (names_drawn w) = inr (path, k) ->
  exists (w' : World) (document : string),
    create_html_page_with_images image_urls w = (inr path, w')
    /\ fs w' !! path = Some document
    /\ document = html_document image_urls
    /\ let content := gallery_indent +:+ concat (map img_tag image_urls) in
       document
       = html_prelude +:+ gallery_open +:+ content +:+ gallery_close +:+ html_tail
       /\ count_sub gallery_open document = 1
       /\ count_sub gallery_close content = 0
       /\ count_sub img_start content = length image_urls
       /\ img_srcs content = image_urls
       /\ Forall (fun u => is_data_uri u = true) (img_srcs content)
       /\ count_sub img_start html_prelude = 0
       /\ count_sub img_start (gallery_close +:+ html_tail) = 0
       /\ (forall url, img_tag url = img_open +:+ url +:+ img_close).
Proof.
  intros Huris Hmk.
  exists (on_fs (<[path := html_document image_urls]> (fs w)) k w),
         (html_document image_urls).
  split; [rewrite create_html_page_with_images_eq, Hmk; reflexivity |].
  split; [apply lookup_insert_eq |].
  split; [reflexivity |].
  exact (gallery_document_structure image_urls Huris).
Qed.

(** C6.  On the empty list the gallery builder does not raise when the
    temporary file can be created: it returns the path of that file,
    which holds the document with an empty container, the container
    holding only the indentation and no [<img] tag. *)
Theorem empty_gallery_is_written (w : World) (path : string) (k : nat) :
  mkstemp_inner TMP_MAX ".html" (fs w) (names_drawn w) = inr (path, k) ->
  let w' := on_fs (<[path := html_document []]> (fs w)) k w in
  create_html_page_with_images [] w = (inr path, w')
  /\ fs w' !! path = Some (html_document [])
  /\ fs w !! path = None
  /\ html_document []
     = html_prelude +:+ gallery_open +:+ gallery_indent +:+ gallery_close +:+ html_tail
  /\ all Ascii.is_space gallery_indent = true
  /\ count_sub gallery_open (html_document []) = 1
  /\ count_sub img_start (html_document []) = 0
  /\ img_srcs (html_document []) = [].
Proof.
  intros Hmk w'.
  split; [rewrite create_html_page_with_images_eq, Hmk; reflexivity |].
  split; [apply lookup_insert_eq |].
  split; [exact (proj1 (mkstemp_inner_fresh _ _ _ _ _ _ Hmk)) |].
  repeat split; vm_compute; reflexivity.
Qed.

(** C7.  Every string [process_image] returns is the prefix followed by
    characters of the base64 alphabet only.  It contains no double
    quote, no [<] and no [>]; inside the tag built from it the [src]
    attribute ends at the quote the template wrote, and the tag has one
    [<], one [>] and the four quotes of the template. *)
Theorem process_image_uri_cannot_break_the_tag
    (prompt : string) (w w' : World) (uri : string) :
  process_image prompt w = (inr uri, w') ->
  (exists payload, uri = data_uri_prefix +:+ payload
                   /\ all is_b64_char payload = true)
  /\ mem dquote uri = false
  /\ mem lt_sign uri = false
  /\ mem gt_sign uri = false
  /\ take_until dquote (uri +:+ img_close) = uri
  /\ img_srcs (img_tag uri) = [uri]
  /\ count_char lt_sign (img_tag uri) = 1
  /\ count_char gt_sign (img_tag uri) = 1
  /\ count_char dquote (img_tag uri) = 4.
Proof.
  rewrite process_image_eq.
  destruct (pipeline_call prompt turbo (model w)) as [[e | [| image rest]] m'];
    try discriminate.
  intros [= <- <-].
  pose proof (b64encode_alphabet (save_png image)) as Hall.
  pose proof (data_uri_safe _ (data_uri_of_is_data_uri image)) as Hsafe.
  pose proof Hsafe as Hsafe'. apply attribute_safe_spec in Hsafe' as [Hq Hlt].
  assert (Hgt : mem gt_sign (data_uri_of image) = false).
  { unfold data_uri_of. rewrite mem_app.
    now rewrite (all_excludes _ gt_sign _ Hall b64_char_not_gt). }
  destruct (tag_counts _ Hsafe Hgt) as (H1 & H2 & H3).
  split; [eexists; split; [reflexivity | exact Hall] |].
  repeat split; try assumption.
  - apply take_until_stop. exact Hq.
  - now apply img_srcs_tag.
Qed.

(** C8, as the code has it.  [process_image] keeps nothing between
    calls: [n] calls with one prompt are [n] calls of the pipeline.  Two
    Data URIs are equal exactly when the PNG bytes of their images are
    equal, so the URIs of a run are pairwise distinct exactly when the PNG
    bytes of the images the pipeline returned are; whether they are is up
    to the pipeline. *)
Theorem uris_distinct_exactly_when_images_distinct
    (prompt : string) (n : nat) (w : World) (images : list Image) :
  served prompt n (model w) = Some images ->
  exists w',
    comprehension (fun _ => process_image prompt) (range (Z.of_nat n)) w
    = (inr (map data_uri_of images), w')
    /\ model_calls w' = model_calls w ++ repeat prompt n
    /\ length (map data_uri_of images) = n
    /\ (forall i j : Image, data_uri_of i = data_uri_of j <-> save_png i = save_png j)
    /\ (List.NoDup (map data_uri_of images) <-> List.NoDup (map save_png images)).
Proof.
  intros Hserved. exists (after_generation prompt n w).
  split; [| split; [| split; [| split]]].
  - rewrite <- (Nat2Z.id n) at 2. rewrite <- (range_length (Z.of_nat n)).
    apply comprehension_served. now rewrite range_length, Nat2Z.id.
  - reflexivity.
  - rewrite length_map. exact (served_length _ _ _ _ Hserved).
  - exact data_uri_of_inj.
  - apply NoDup_map_iff. exact data_uri_of_inj.
Qed.

(** C9.  For every path, [display_in_browser] asks the browser facility
    to open the URL made of [file://] and the path, with [new = 2], the
    code of a new tab and not of a new window, and returns [None]
    whatever the facility answers. *)
Theorem display_in_browser_requests_new_tab (html_file_path : string) (w : World) :
  exists w',
    display_in_browser html_file_path w = (inr tt, w')
    /\ browser w' = browser w ++ [("file://" +:+ html_file_path, 2%Z)]
    /\ strip_prefix "file://" ("file://" +:+ html_file_path) = Some html_file_path
    /\ target_of_new 2 = Some NewTab
    /\ target_of_new 2 <> Some NewWindow
    /\ fs w' = fs w /\ model w' = model w.
Proof.
  exists (on_browser ("file://" +:+ html_file_path) 2 w).
  split; [reflexivity |]. split; [reflexivity |].
  split; [apply strip_prefix_app |]. split; [reflexivity |].
  split; [discriminate |]. split; reflexivity.
Qed.


End Claims.

(* ===================================================================== *)
(** * The claims on a concrete machine                                    *)
(* ===================================================================== *)

Section Demonstrations.
Import Stub.

(** The run of the notebook's own cell, three fresh images. *)
Lemma pipeline_gallery_demo :
  ((0 <= 3)%Z
   /\ served (E := fresh) prompt 3 0 = Some [0; 1; 2]
   /\ mkstemp_inner (E := fresh) (TMP_MAX (Env := fresh)) ".html" ∅ 0 = inr (first_tmp, 1))
  /\ fst (comprehension (fun _ => process_image (E := fresh) prompt) (range 3)
            (world0 fresh 0))
     = inr [uri0; uri1; uri2]
  /\ fst (main (E := fresh) (world0 fresh 0)) = inr tt
  /\ img_srcs (html_document [uri0; uri1; uri2]) = [uri0; uri1; uri2]
  /\ Str.count_sub img_start (html_document [uri0; uri1; uri2]) = 3.
Proof.
  assert (H0 : (0 <= 3)%Z) by lia.
  assert (H1 : served (E := fresh) prompt 3 0 = Some [0; 1; 2])
    by (vm_compute; reflexivity).
  assert (H2 : mkstemp_inner (E := fresh) (TMP_MAX (Env := fresh)) ".html" ∅ 0 = inr (first_tmp, 1))
    by (vm_compute; reflexivity).
  split; [repeat split; assumption |].
  destruct (pipeline_gallery_has_N_images_in_order (E := fresh)
              prompt 3 (world0 fresh 0) [0; 1; 2] first_tmp 1 H0 H1 H2)
    as (Hcomp & _ & _ & Hmain & _ & Hcount & Hsrcs).
  split; [now rewrite Hcomp |].
  split; [unfold main; fold prompt; now rewrite Hmain |].
  split; [exact Hsrcs | exact Hcount].
Defined.

(** The second of three calls raises. *)
Lemma generation_failure_demo :
  ((0 <= 1 < 3)%Z
   /\ fst (comprehension (fun _ => process_image (E := failing) prompt) (range 1)
             (world0 failing 0)) = inr [uri0])
  /\ fst (main (E := failing) (world0 failing 0)) = inl (External "out of memory")
  /\ fs (snd (main (E := failing) (world0 failing 0))) = ∅
  /\ browser (snd (main (E := failing) (world0 failing 0))) = []
  /\ model_calls (snd (main (E := failing) (world0 failing 0))) = [prompt; prompt].
Proof.
  assert (H0 : (0 <= 1 < 3)%Z) by lia.
  pose (w1 := snd (comprehension (fun _ => process_image (E := failing) prompt)
                     (range 1) (world0 failing 0))).
  pose (w2 := snd (process_image (E := failing) prompt w1)).
  assert (H1 : comprehension (fun _ => process_image (E := failing) prompt) (range 1)
                 (world0 failing 0) = (inr [uri0], w1))
    by (vm_compute; reflexivity).
  assert (H2 : process_image (E := failing) prompt w1
               = (inl (External "out of memory"), w2))
    by (vm_compute; reflexivity).
  split; [split; [exact H0 | now rewrite H1] |].
  destruct (generation_failure_delivers_nothing (E := failing)
              prompt 3 1 (world0 failing 0) w1 w2 [uri0] _ H0 H1 H2)
    as (Hmain & Hfs & _ & Hbrowser & Hcalls).
  unfold main. fold prompt. rewrite Hmain. cbn [fst snd].
  repeat split; assumption.
Defined.

(** One call on the fresh machine. *)
Lemma process_image_demo :
  process_image (E := fresh) prompt (world0 fresh 0)
  = (inr uri0, on_model (E := fresh) prompt 1 (world0 fresh 0))
  /\ Str.strip_prefix data_uri_prefix uri0 = Some "iVBORw0KGgoA"
  /\ Base64.b64decode (list_byte_of_string "iVBORw0KGgoA") = Some (png 0).
Proof.
  assert (H : process_image (E := fresh) prompt (world0 fresh 0)
              = (inr uri0, on_model (E := fresh) prompt 1 (world0 fresh 0)))
    by (vm_compute; reflexivity).
  split; [exact H |].
  destruct (process_image_returns_png_data_uri (E := fresh) _ _ _ _ H)
    as (image & others & payload & Hcall & Hpay & Huri & Hstrip & Hdec).
  vm_compute in Hcall. injection Hcall as <- _.
  subst payload. split; [exact Hstrip | exact Hdec].
Defined.

(** The builder run twice in a row on one list: two paths, one content. *)
Lemma gallery_document_demo :
  (create_html_page_with_images (E := fresh) [uri0; uri1] (world0 fresh 0)
   = (inr first_tmp, on_fs {[first_tmp := html_document [uri0; uri1]]} 1 (world0 fresh 0))
   /\ fst (create_html_page_with_images (E := fresh) [uri0; uri1]
             (on_fs {[first_tmp := html_document [uri0; uri1]]} 1 (world0 fresh 0)))
      = inr second_tmp)
  /\ first_tmp <> second_tmp
  /\ fs (snd (create_html_page_with_images (E := fresh) [uri0; uri1]
                (on_fs {[first_tmp := html_document [uri0; uri1]]} 1 (world0 fresh 0))))
       !! second_tmp
     = Some (html_document [uri0; uri1]).
Proof.
  pose (wa := world0 fresh 0).
  pose (wa' := on_fs {[first_tmp := html_document [uri0; uri1]]} 1 wa).
  pose (wb' := snd (create_html_page_with_images (E := fresh) [uri0; uri1] wa')).
  assert (Ha : create_html_page_with_images (E := fresh) [uri0; uri1] wa
               = (inr first_tmp, wa')) by (vm_compute; reflexivity).
  assert (Hb : create_html_page_with_images (E := fresh) [uri0; uri1] wa'
               = (inr second_tmp, wb')) by (vm_compute; reflexivity).
  split; [split; [exact Ha | exact (f_equal fst Hb)] |].
  split; [discriminate |].
  exact (proj1 (proj2 (gallery_document_is_deterministic (E := fresh)
                         [uri0; uri1] wa wa' wa' wb' first_tmp second_tmp Ha Hb))).
Defined.

(** A gallery of two images. *)
Lemma gallery_container_demo :
  (Forall (fun u => is_data_uri u = true) [uri0; uri1]
   /\ mkstemp_inner (E := fresh) (TMP_MAX (Env := fresh)) ".html" ∅ 0
      = inr (first_tmp, 1))
  /\ fst (create_html_page_with_images (E := fresh) [uri0; uri1] (world0 fresh 0))
     = inr first_tmp
  /\ Str.count_sub gallery_open (html_document [uri0; uri1]) = 1
  /\ img_srcs (gallery_indent +:+ Str.concat (map img_tag [uri0; uri1])) = [uri0; uri1].
Proof.
  assert (H : Forall (fun u => is_data_uri u = true) [uri0; uri1])
    by (repeat constructor).
  assert (Hmk : mkstemp_inner (E := fresh) (TMP_MAX (Env := fresh)) ".html"
                  (fs (world0 fresh 0)) (names_drawn (world0 fresh 0))
                = inr (first_tmp, 1))
    by (vm_compute; reflexivity).
  split; [split; [exact H | exact Hmk] |].
  destruct (gallery_container_holds_the_images (E := fresh)
              [uri0; uri1] (world0 fresh 0) first_tmp 1 H Hmk)
    as (w' & document & Hcreate & _ & -> & _ & Hopen & _ & _ & Hsrcs & _).
  rewrite Hcreate. split; [reflexivity |].
  split; [exact Hopen | exact Hsrcs].
Defined.

(** The empty gallery on the fresh machine. *)
Lemma empty_gallery_demo :
  mkstemp_inner (E := fresh) (TMP_MAX (Env := fresh)) ".html" ∅ 0 = inr (first_tmp, 1)
  /\ create_html_page_with_images (E := fresh) [] (world0 fresh 0)
     = (inr first_tmp, on_fs (<[first_tmp := html_document []]> ∅) 1 (world0 fresh 0))
  /\ img_srcs (html_document []) = [].
Proof.
  assert (H : mkstemp_inner (E := fresh) (TMP_MAX (Env := fresh)) ".html" ∅ 0 = inr (first_tmp, 1))
    by (vm_compute; reflexivity).
  split; [exact H |].
  destruct (empty_gallery_is_written (E := fresh) (world0 fresh 0) first_tmp 1 H)
    as (Hcreate & _ & _ & _ & _ & _ & _ & Hsrcs).
  split; [exact Hcreate | exact Hsrcs].
Defined.

(** The URI of the first image inside its tag. *)
Lemma attribute_demo :
  process_image (E := fresh) prompt (world0 fresh 0)
  = (inr uri0, on_model (E := fresh) prompt 1 (world0 fresh 0))
  /\ Str.mem Str.dquote uri0 = false
  /\ img_srcs (img_tag uri0) = [uri0].
Proof.
  assert (H : process_image (E := fresh) prompt (world0 fresh 0)
              = (inr uri0, on_model (E := fresh) prompt 1 (world0 fresh 0)))
    by (vm_compute; reflexivity).
  split; [exact H |].
  destruct (process_image_uri_cannot_break_the_tag (E := fresh) _ _ _ _ H)
    as (_ & Hq & _ & _ & _ & Hsrcs & _).
  split; [exact Hq | exact Hsrcs].
Defined.

(** Three calls, three images, three URIs. *)
Lemma distinct_uris_demo :
  served (E := fresh) prompt 3 0 = Some [0; 1; 2]
  /\ fst (comprehension (fun _ => process_image (E := fresh) prompt) (range 3)
            (world0 fresh 0))
     = inr [uri0; uri1; uri2]
  /\ List.NoDup [uri0; uri1; uri2].
Proof.
  assert (H : served (E := fresh) prompt 3 0 = Some [0; 1; 2])
    by (vm_compute; reflexivity).
  split; [exact H |].
  destruct (uris_distinct_exactly_when_images_distinct (E := fresh) prompt 3
              (world0 fresh 0) [0; 1; 2] H) as (w' & Hrun & _ & _ & _ & Hiff).
  split.
  - change (range 3) with (range (Z.of_nat 3)). rewrite Hrun. reflexivity.
  - apply Hiff. vm_compute.
    repeat (constructor; [cbn; intros Hin; repeat destruct Hin as [Hin | Hin];
                          discriminate || contradiction |]).
    constructor.
Defined.

(** C8 as stated fails: on a pipeline that returns the same image at
    every call, the run of the notebook's cell, with its prompt and its
    count of three, yields three equal Data URIs. *)
Lemma identical_images_give_identical_uris :
  fst (comprehension (fun _ => process_image (E := frozen) prompt) (range 3)
         (world0 frozen 0))
  = inr [uri0; uri0; uri0]
  /\ ~ List.NoDup [uri0; uri0; uri0].
Proof.
  split; [vm_compute; reflexivity |].
  intros Hnd. apply NoDup_cons_iff in Hnd as [Hnin _].
  apply Hnin. now left.
Qed.

(** A relative path with characters that a URL would escape, on a
    machine without any file. *)
Example display_relative_path :
  display_in_browser (E := fresh) "my gallery/a b#c?d%.html" (world0 fresh 0)
  = (inr tt, on_browser "file://my gallery/a b#c?d%.html" 2 (world0 fresh 0)).
Proof. reflexivity. Qed.

End Demonstrations.


(* ===================================================================== *)
(** * Further properties of the cells                                     *)
(* ===================================================================== *)

Section MoreFacts.
Context {E : Env}.
Import Str StrFacts Base64 Base64Facts GalleryFacts.

Lemma length_append (a b : string) :
  String.length (a +:+ b) = String.length a + String.length b.
Proof.
  induction a as [|x a IH]; [reflexivity |].
  rewrite app_cons. cbn [String.length]. now rewrite IH.
Qed.

Lemma length_string_of_list_byte (l : list byte) :
  String.length (string_of_list_byte l) = length l.
Proof.
  induction l as [|c l IH]; [reflexivity |].
  change (string_of_list_byte (c :: l))
    with (String (ascii_of_byte c) (string_of_list_byte l)).
  cbn [String.length length]. now rewrite IH.
Qed.

Lemma length_tags (image_urls : list string) :
  String.length (concat (map img_tag image_urls))
  = list_sum (map (fun u => 35 + String.length u) image_urls).
Proof.
  induction image_urls as [|u l IH]; [reflexivity |].
  cbn [map concat]. rewrite length_append, IH.
  unfold list_sum. cbn [fold_right].
  unfold img_tag. rewrite !length_append.
  replace (String.length img_open) with 10 by (vm_compute; reflexivity).
  replace (String.length img_close) with 25 by (vm_compute; reflexivity).
  lia.
Qed.

(** The first quote ends the reading, wherever it is. *)
Lemma take_until_first (c : ascii) (u r : string) :
  take_until c (u +:+ String c r) = take_until c u.
Proof.
  induction u as [|x u IH].
  - rewrite app_nil_l. cbn. now rewrite Ascii.eqb_refl.
  - rewrite app_cons. cbn. destruct (Ascii.eqb c x); [reflexivity | now rewrite IH].
Qed.

Lemma take_until_shorter (c : ascii) (u : string) :
  mem c u = true -> String.length (take_until c u) < String.length u.
Proof.
  induction u as [|x u IH]; cbn; [discriminate |].
  destruct (Ascii.eqb c x); cbn; [lia |]. intros Hu. specialize (IH Hu). lia.
Qed.

Lemma take_until_keeps_absent (c d : ascii) (u : string) :
  mem d u = false -> mem d (take_until c u) = false.
Proof.
  induction u as [|x u IH]; cbn; [reflexivity |].
  destruct (Ascii.eqb d x) eqn:Hdx; [discriminate |]. intros Hu.
  destruct (Ascii.eqb c x); cbn; [reflexivity |].
  rewrite Hdx. now apply IH.
Qed.

Lemma take_until_id (c : ascii) (u : string) :
  take_until c u = u <-> mem c u = false.
Proof.
  split.
  - intros Heq. destruct (mem c u) eqn:Hm; [| reflexivity].
    pose proof (take_until_shorter c u Hm) as Hlt. rewrite Heq in Hlt. lia.
  - intros Hm. induction u as [|x u IH]; cbn in *; [reflexivity |].
    destruct (Ascii.eqb c x); [discriminate | now rewrite IH].
Qed.

(** What a reader finds in a run of tags whose URLs are free of [<]. *)
Lemma img_srcs_tags_cut (image_urls : list string) (rest : string) :
  Forall (fun u => mem lt_sign u = false) image_urls ->
  starts lt_sign rest = true ->
  img_srcs (concat (map img_tag image_urls) +:+ rest)
  = map (take_until dquote) image_urls ++ img_srcs rest.
Proof.
  intros Hlt Hr. induction Hlt as [|u l Hu Hl IH]; [reflexivity |].
  cbn [map concat]. rewrite app_assoc. unfold img_srcs in *.
  rewrite occurrences_tag by (try assumption; now apply tags_start).
  cbn [map List.app]. rewrite IH. f_equal.
  unfold img_close. rewrite !app_assoc.
  change (q +:+ " alt=" +:+ q +:+ "Generated Image" +:+ q +:+ "/>"
            +:+ concat (map img_tag l) +:+ rest)
    with (String dquote (" alt=" +:+ q +:+ "Generated Image" +:+ q +:+ "/>"
                           +:+ concat (map img_tag l) +:+ rest)).
  apply take_until_first.
Qed.

(** A comprehension that returns was served by the model. *)
Lemma comprehension_success_served (prompt : string) (xs : list Z) (w w' : World)
    (l : list string) :
  comprehension (fun _ => process_image prompt) xs w = (inr l, w') ->
  exists images, served prompt (length xs) (model w) = Some images.
Proof.
  revert w l w'. induction xs as [|x xs IH]; intros w l w'; cbn [comprehension length served].
  - eauto.
  - unfold bind, ret. rewrite process_image_eq.
    destruct (pipeline_call prompt turbo (model w)) as [[e | [| image rest]] m'];
      try discriminate.
    destruct (comprehension _ xs (on_model prompt m' w)) as [[e | l1] w2] eqn:Hrec;
      [discriminate |].
    intros _. apply IH in Hrec as [images Hs].
    change (model (on_model prompt m' w)) with m' in Hs.
    rewrite Hs. cbn. eauto.
Qed.

Lemma comprehension_inv (prompt : string) (xs : list Z) (w w' : World)
    (l : list string) :
  comprehension (fun _ => process_image prompt) xs w = (inr l, w') ->
  exists images,
    served prompt (length xs) (model w) = Some images
    /\ l = map data_uri_of images
    /\ w' = after_generation prompt (length xs) w.
Proof.
  intros Hrun. destruct (comprehension_success_served _ _ _ _ _ Hrun) as [images Hs].
  exists images. rewrite (comprehension_served _ _ _ _ Hs) in Hrun.
  injection Hrun as <- <-. auto.
Qed.

Lemma create_html_page_with_images_inv (image_urls : list string) (w w' : World)
    (path : string) :
  create_html_page_with_images image_urls w = (inr path, w') ->
  exists k,
    mkstemp_inner TMP_MAX ".html" (fs w) (names_drawn w) = inr (path, k)
    /\ w' = on_fs (<[path := html_document image_urls]> (fs w)) k w.
Proof.
  rewrite create_html_page_with_images_eq.
  destruct (mkstemp_inner TMP_MAX ".html" (fs w) (names_drawn w)) as [e | [p k]];
    [discriminate |].
  intros [= <- <-]. eauto.
Qed.


End MoreFacts.

Section MoreProperties.
Context {E : Env}.
Import Str StrFacts Base64 Base64Facts GalleryFacts.

(** X1.  Every run of the main cell that returns has this shape: the
    model served all the calls, one call per requested image; exactly one
    file was added, at a path that did not exist, holding the gallery of
    the served images in call order; and the browser received exactly one
    request, for the [file://] URL of that very path. *)
Theorem successful_run_shape (prompt : string) (N : Z) (w w' : World) :
  main_with prompt N w = (inr tt, w') ->
  exists (images : list Image) (path : string),
    served prompt (Z.to_nat N) (model w) = Some images
    /\ length images = Z.to_nat N
    /\ fs w !! path = None
    /\ fs w' = <[path := html_document (map data_uri_of images)]> (fs w)
    /\ browser w' = browser w ++ [("file://" +:+ path, 2%Z)]
    /\ model_calls w' = model_calls w ++ repeat prompt (Z.to_nat N)
    /\ model w' = model_after prompt (Z.to_nat N) (model w).
Proof.
  unfold main_with, bind.
  destruct (comprehension _ (range N) w) as [[e | image_urls] w1] eqn:Hgen;
    [discriminate |].
  destruct (create_html_page_with_images image_urls w1) as [[e | path] w2] eqn:Hcreate;
    [discriminate |].
  rewrite display_in_browser_eq. intros [= <-].
  apply comprehension_inv in Hgen as (images & Hserved & -> & ->).
  rewrite range_length in Hserved.
  apply create_html_page_with_images_inv in Hcreate as (k & Hmk & ->).
  rewrite range_length in Hmk. cbn [fs names_drawn after_generation] in Hmk.
  exists images, path.
  split; [exact Hserved |].
  split; [exact (served_length _ _ _ _ Hserved) |].
  split; [exact (proj1 (mkstemp_inner_fresh _ _ _ _ _ _ Hmk)) |].
  rewrite range_length. repeat split.
Qed.


(** X3.  When all images were generated and the temporary file cannot be
    created, the run raises what the temporary-file facility raised, after
    the model has made all its calls: the images are lost, no file is
    added and the browser is not asked anything. *)
Theorem tempfile_failure_discards_images
    (prompt : string) (N : Z) (w : World) (images : list Image) (e : exn) :
  served prompt (Z.to_nat N) (model w) = Some images ->
  mkstemp_inner TMP_MAX ".html" (fs w) (names_drawn w) = inl e ->
  exists w',
    main_with prompt N w = (inl e, w')
    /\ model_calls w' = model_calls w ++ repeat prompt (Z.to_nat N)
    /\ fs w' = fs w
    /\ browser w' = browser w.
Proof.
  intros Hserved Hmk. exists (after_generation prompt (Z.to_nat N) w).
  split; [| repeat split].
  unfold main_with, bind.
  rewrite <- (range_length N) in Hserved |- *.
  rewrite (comprehension_served _ _ _ _ Hserved).
  rewrite create_html_page_with_images_eq.
  cbn [fs names_drawn after_generation]. now rewrite Hmk.
Qed.

(** X4.  [process_image] catches nothing.  When the pipeline raises,
    the same exception leaves [process_image]; when the pipeline returns
    an empty list of images, [images[0]] raises [IndexError].  In both
    cases the call has been made, the model is in the state the pipeline
    left it in, and files, name counter and browser are untouched. *)
Theorem process_image_propagates_failures (prompt : string) (w : World) (e : exn) :
  (fst (pipeline_call prompt turbo (model w)) = inl e
   \/ (fst (pipeline_call prompt turbo (model w)) = inr [] /\ e = IndexError)) ->
  exists w',
    process_image prompt w = (inl e, w')
    /\ model w' = snd (pipeline_call prompt turbo (model w))
    /\ model_calls w' = model_calls w ++ [prompt]
    /\ fs w' = fs w
    /\ names_drawn w' = names_drawn w
    /\ browser w' = browser w.
Proof.
  intros Hfail. rewrite process_image_eq.
  destruct (pipeline_call prompt turbo (model w)) as [[e0 | [| image rest]] m'];
    cbn [fst snd] in *.
  - destruct Hfail as [[= <-] | [[=] _]].
    exists (on_model prompt m' w). repeat split.
  - destruct Hfail as [[=] | [_ ->]].
    exists (on_model prompt m' w). repeat split.
  - destruct Hfail as [[=] | [[=] _]].
Qed.

(** X5.  The Data URI of an image whose PNG has [n] bytes has
    [22 + 4 * ceil(n / 3)] characters: the prefix has 22, and the payload
    has four characters for every three bytes, the last group padded. *)
Theorem data_uri_length (prompt : string) (w w' : World) (uri : string) :
  process_image prompt w = (inr uri, w') ->
  exists (image : Image) (others : list Image),
    pipeline_call prompt turbo (model w) = (inr (image :: others), model w')
    /\ String.length uri = 22 + 4 * ((length (save_png image) + 2) / 3).
Proof.
  rewrite process_image_eq.
  destruct (pipeline_call prompt turbo (model w)) as [[e | [| image rest]] m'];
    try discriminate.
  intros [= <- <-]. exists image, rest. split; [reflexivity |].
  unfold data_uri_of.
  rewrite length_append, length_string_of_list_byte, b64encode_length.
  reflexivity.
Qed.

(** X6.  The path the gallery builder returns is [os.path.join] of the
    temporary directory and a file name that begins with [tmp] and ends
    with [.html]; no file had that path; it now holds the document, every
    file that existed before is still there with its content, and nothing
    but the file system and the name counter has changed. *)
Theorem gallery_file_is_a_new_html_file
    (image_urls : list string) (w w' : World) (path : string) :
  create_html_page_with_images image_urls w = (inr path, w') ->
  (exists name, path = path_join gettempdir ("tmp" +:+ name +:+ ".html"))
  /\ fs w !! path = None
  /\ fs w' !! path = Some (html_document image_urls)
  /\ (forall p, p <> path -> fs w' !! p = fs w !! p)
  /\ (forall p content, fs w !! p = Some content -> fs w' !! p = Some content)
  /\ model w' = model w
  /\ model_calls w' = model_calls w
  /\ browser w' = browser w.
Proof.
  intros Hcreate.
  apply create_html_page_with_images_inv in Hcreate as (k & Hmk & ->).
  destruct (mkstemp_inner_fresh _ _ _ _ _ _ Hmk) as (Hnew & Hpath & _).
  split; [exists (tmp_names (pred k)); exact Hpath |].
  split; [exact Hnew |].
  cbn [fs on_fs model model_calls browser].
  split; [apply lookup_insert_eq |].
  split; [intros p Hp; now apply lookup_insert_ne |].
  split; [| repeat split].
  intros p content Hp. rewrite lookup_insert_ne; [exact Hp |].
  intros <-. rewrite Hnew in Hp. discriminate.
Qed.

(** X7.  Two galleries built one after the other get different paths, and
    after the second call both files hold their own document: the second
    call does not touch the first gallery. *)
Theorem successive_galleries_coexist
    (l1 l2 : list string) (w w1 w2 : World) (p1 p2 : string) :
  create_html_page_with_images l1 w = (inr p1, w1) ->
  create_html_page_with_images l2 w1 = (inr p2, w2) ->
  p1 <> p2
  /\ fs w2 !! p1 = Some (html_document l1)
  /\ fs w2 !! p2 = Some (html_document l2).
Proof.
  intros H1 H2.
  apply create_html_page_with_images_inv in H1 as (k1 & Hmk1 & ->).
  apply create_html_page_with_images_inv in H2 as (k2 & Hmk2 & ->).
  cbn [fs on_fs names_drawn] in *.
  destruct (mkstemp_inner_fresh _ _ _ _ _ _ Hmk2) as (Hnew2 & _ & _).
  assert (Hne : p1 <> p2).
  { intros <-. rewrite lookup_insert_eq in Hnew2. discriminate. }
  split; [exact Hne |].
  split; [| apply lookup_insert_eq].
  rewrite lookup_insert_ne by (intros Heq; apply Hne; now symmetry).
  apply lookup_insert_eq.
Qed.

(** X8.  The size of the gallery document, for any list of strings: the
    925 characters of the template and, for each element, its own length
    plus the 35 characters of the tag around it. *)
Theorem html_document_length (image_urls : list string) :
  String.length (html_document image_urls)
  = 925 + list_sum (map (fun u => 35 + String.length u) image_urls).
Proof.
  rewrite html_document_eq, !length_append, length_tags.
  replace (String.length html_header) with 905 by (vm_compute; reflexivity).
  replace (String.length html_footer) with 20 by (vm_compute; reflexivity).
  lia.
Qed.

(** X9.  The builder escapes nothing.  For URLs free of [<], the file it
    writes has one [src] attribute per URL, in order, and the text of
    each, as written between the quotes, is the URL cut at its first
    double quote; so the texts written are the URLs given exactly when no
    URL contains a double quote.  When no URL contains [&], none of the
    texts does, and there is no character reference in them. *)
Theorem written_src_text_is_cut_at_first_quote
    (image_urls : list string) (w w' : World) (path : string) :
  Forall (fun u => mem lt_sign u = false) image_urls ->
  create_html_page_with_images image_urls w = (inr path, w') ->
  exists document,
    fs w' !! path = Some document
    /\ img_srcs document = map (take_until dquote) image_urls
    /\ (img_srcs document = image_urls
        <-> Forall (fun u => mem dquote u = false) image_urls)
    /\ (Forall (fun u => mem ampersand u = false) image_urls ->
        Forall (fun s => mem ampersand s = false) (img_srcs document)).
Proof.
  intros Hlt Hcreate.
  apply create_html_page_with_images_inv in Hcreate as (k & _ & ->).
  exists (html_document image_urls).
  split; [apply lookup_insert_eq |].
  assert (Hread : img_srcs (html_document image_urls)
                  = map (take_until dquote) image_urls).
  { rewrite html_document_eq. unfold img_srcs.
    change img_open with (String lt_sign ("img src=" +:+ q)).
    rewrite (occurrences_seam lt_sign) by (try reflexivity; now apply tags_start).
    change (String lt_sign ("img src=" +:+ q)) with img_open.
    replace (occurrences img_open html_header) with (@nil string)
      by (vm_compute; reflexivity).
    cbn [map List.app].
    fold (img_srcs (concat (map img_tag image_urls) +:+ html_footer)).
    rewrite img_srcs_tags_cut by (try assumption; reflexivity).
    replace (img_srcs html_footer) with (@nil string) by (vm_compute; reflexivity).
    apply List.app_nil_r. }
  split; [exact Hread |].
  rewrite Hread. clear Hread Hlt. split.
  - induction image_urls as [|u l IH]; cbn [map].
    + split; [constructor | reflexivity].
    + split.
      * intros [= Hu Hl]. constructor; [now apply take_until_id | now apply IH].
      * intros Hall. apply Forall_cons in Hall as [Hu Hl].
        f_equal; [now apply take_until_id | now apply IH].
  - intros Hamp. induction Hamp as [|u l Hu Hl IH]; cbn [map]; constructor;
      [now apply take_until_keeps_absent | exact IH].
Qed.

End MoreProperties.

Section MoreDemonstrations.
Import Stub.

(** The run of the notebook's cell on the fresh machine. *)
Lemma successful_run_demo :
  main_with (E := fresh) prompt 3 (world0 fresh 0)
  = (inr tt, snd (main_with (E := fresh) prompt 3 (world0 fresh 0)))
  /\ length (browser (snd (main_with (E := fresh) prompt 3 (world0 fresh 0)))) = 1
  /\ model_calls (snd (main_with (E := fresh) prompt 3 (world0 fresh 0)))
     = [prompt; prompt; prompt].
Proof.
  assert (H : main_with (E := fresh) prompt 3 (world0 fresh 0)
              = (inr tt, snd (main_with (E := fresh) prompt 3 (world0 fresh 0))))
    by (vm_compute; reflexivity).
  split; [exact H |].
  destruct (successful_run_shape (E := fresh) _ _ _ _ H)
    as (images & path & _ & _ & _ & _ & Hbrowser & Hcalls & _).
  split; [rewrite Hbrowser; reflexivity | exact Hcalls].
Defined.


(** Three images generated, and no temporary name left. *)
Lemma tempfile_failure_demo :
  (served (E := Jammed.env) prompt 3 0 = Some [0; 1; 2]
   /\ mkstemp_inner (E := Jammed.env) (TMP_MAX (Env := Jammed.env)) ".html"
        {[ "/tmp/tmpx.html" := "taken" ]} 0 = inl FileExistsError)
  /\ fst (main_with (E := Jammed.env) prompt 3 Jammed.world0) = inl FileExistsError
  /\ browser (snd (main_with (E := Jammed.env) prompt 3 Jammed.world0)) = [].
Proof.
  assert (H1 : served (E := Jammed.env) prompt 3 (model Jammed.world0) = Some [0; 1; 2])
    by (vm_compute; reflexivity).
  assert (H2 : mkstemp_inner (E := Jammed.env) (TMP_MAX (Env := Jammed.env)) ".html"
                 (fs Jammed.world0) (names_drawn Jammed.world0)
               = inl FileExistsError)
    by (vm_compute; reflexivity).
  split; [split; [exact H1 | exact H2] |].
  destruct (tempfile_failure_discards_images (E := Jammed.env)
              prompt 3 Jammed.world0 [0; 1; 2] FileExistsError H1 H2)
    as (w' & Hmain & _ & _ & Hbrowser).
  rewrite Hmain. cbn [fst snd]. split; [reflexivity | exact Hbrowser].
Defined.

(** The call that the failing model refuses. *)
Lemma process_image_failure_demo :
  fst (pipeline_call (Env := failing) prompt turbo 1) = inl (External "out of memory")
  /\ fst (process_image (E := failing) prompt (world0 failing 1))
     = inl (External "out of memory")
  /\ model_calls (snd (process_image (E := failing) prompt (world0 failing 1)))
     = [prompt].
Proof.
  assert (H : fst (pipeline_call (Env := failing) prompt turbo (model (world0 failing 1)))
              = inl (External "out of memory"))
    by (vm_compute; reflexivity).
  split; [exact H |].
  destruct (process_image_propagates_failures (E := failing) prompt (world0 failing 1)
              (External "out of memory") (or_introl H))
    as (w' & Hrun & _ & Hcalls & _).
  rewrite Hrun. cbn [fst snd]. split; [reflexivity | exact Hcalls].
Defined.

(** The nine bytes of the first image give twelve characters of payload. *)
Lemma data_uri_length_demo :
  process_image (E := fresh) prompt (world0 fresh 0)
  = (inr uri0, on_model (E := fresh) prompt 1 (world0 fresh 0))
  /\ String.length uri0 = 34.
Proof.
  assert (H : process_image (E := fresh) prompt (world0 fresh 0)
              = (inr uri0, on_model (E := fresh) prompt 1 (world0 fresh 0)))
    by (vm_compute; reflexivity).
  split; [exact H |].
  destruct (data_uri_length (E := fresh) _ _ _ _ H) as (image & others & Hcall & Hlen).
  vm_compute in Hcall. injection Hcall as <- _. exact Hlen.
Defined.

(** One gallery on the fresh machine. *)
Lemma gallery_file_demo :
  create_html_page_with_images (E := fresh) [uri0] (world0 fresh 0)
  = (inr first_tmp, on_fs {[first_tmp := html_document [uri0]]} 1 (world0 fresh 0))
  /\ (exists name, first_tmp = posix_join "/tmp" ("tmp" +:+ name +:+ ".html")).
Proof.
  assert (H : create_html_page_with_images (E := fresh) [uri0] (world0 fresh 0)
              = (inr first_tmp,
                 on_fs {[first_tmp := html_document [uri0]]} 1 (world0 fresh 0)))
    by (vm_compute; reflexivity).
  split; [exact H |].
  exact (proj1 (gallery_file_is_a_new_html_file (E := fresh) _ _ _ _ H)).
Defined.

(** A gallery of one image, then an empty one. *)
Lemma successive_galleries_demo :
  (create_html_page_with_images (E := fresh) [uri0] (world0 fresh 0)
   = (inr first_tmp, on_fs {[first_tmp := html_document [uri0]]} 1 (world0 fresh 0))
   /\ fst (create_html_page_with_images (E := fresh) []
             (on_fs {[first_tmp := html_document [uri0]]} 1 (world0 fresh 0)))
      = inr second_tmp)
  /\ fs (snd (create_html_page_with_images (E := fresh) []
                (on_fs {[first_tmp := html_document [uri0]]} 1 (world0 fresh 0))))
       !! first_tmp
     = Some (html_document [uri0]).
Proof.
  pose (w1 := on_fs {[first_tmp := html_document [uri0]]} 1 (world0 fresh 0)).
  pose (w2 := snd (create_html_page_with_images (E := fresh) [] w1)).
  assert (H1 : create_html_page_with_images (E := fresh) [uri0] (world0 fresh 0)
               = (inr first_tmp, w1)) by (vm_compute; reflexivity).
  assert (H2 : create_html_page_with_images (E := fresh) [] w1 = (inr second_tmp, w2))
    by (vm_compute; reflexivity).
  split; [split; [exact H1 | exact (f_equal fst H2)] |].
  exact (proj1 (proj2 (successive_galleries_coexist (E := fresh)
                         [uri0] [] (world0 fresh 0) w1 w2 first_tmp second_tmp H1 H2))).
Defined.

(** A URL with a double quote in it is written whole and read up to
    that quote. *)
Lemma cut_at_quote_demo :
  (Forall (fun u => Str.mem Str.lt_sign u = false) [String "a" (String Str.dquote "b")]
   /\ fst (create_html_page_with_images (E := fresh)
             [String "a" (String Str.dquote "b")] (world0 fresh 0))
      = inr first_tmp)
  /\ img_srcs (html_document [String "a" (String Str.dquote "b")]) = ["a"].
Proof.
  pose (w' := snd (create_html_page_with_images (E := fresh)
                     [String "a" (String Str.dquote "b")] (world0 fresh 0))).
  assert (H : Forall (fun u => Str.mem Str.lt_sign u = false)
                [String "a" (String Str.dquote "b")])
    by (repeat constructor).
  assert (Hc : create_html_page_with_images (E := fresh)
                 [String "a" (String Str.dquote "b")] (world0 fresh 0)
               = (inr first_tmp, w'))
    by (vm_compute; reflexivity).
  split; [split; [exact H | exact (f_equal fst Hc)] |].
  destruct (written_src_text_is_cut_at_first_quote (E := fresh) _ _ _ _ H Hc)
    as (document & Hfile & Hread & _).
  assert (Hdoc : fs w' !! first_tmp
                 = Some (html_document [String "a" (String Str.dquote "b")]))
    by (vm_compute; reflexivity).
  rewrite Hdoc in Hfile. injection Hfile as <-. exact Hread.
Defined.

End MoreDemonstrations.
